(** * process_covidtracking: the fetcher and the reshaper

    A shallow embedding of [src/process_covidtracking.py]: [GetData]
    (the date-keyed JSON cache) and [ExtractDataFrame] (the reshaping of
    the flat per-state-per-day records into a table indexed by
    (state, date) with the derived [new_cases] column).

    Modelling conventions.
    - A record of the feed is an [entry]: its ['state'] and ['date']
      fields, which every record of the feed carries, are record
      projections; the remaining fields are a finite map from the field
      name to a JSON value, a number or [null].
    - The numbers of the feed are integers (it reports counts); a cell
      holds an integer or the missing-value marker [np.nan], the separate
      constructor [NaN]. A cell of a float64 array holds the integer that
      the double is: the doubles that occur are roundings of integers.
      A column is stored in the dtype that pandas infers for it, int64
      or float64; the statements about stored numbers are for feeds
      whose numbers are in the int64 range ([int64_feed]).
    - Python exceptions are values of [exn]; a computation that can raise
      returns a [result].
    - The calls into pandas and numpy are modelled by the functions of the
      section "pandas and numpy" below, each with the library behaviour it
      stands for. *)

From stdpp Require Import gmap strings.
From Stdlib Require Import Ascii String Bool Arith ZArith Lia ZifyNat.
From Stdlib Require Import List Permutation Sorted.
Import ListNotations.
Set Warnings "-abstract-large-number".
Local Open Scope string_scope.
Local Open Scope list_scope.
Local Open Scope nat_scope.

(** ** Exceptions *)

Inductive exn : Type :=
| ValueError (data_string : string)
| JSONDecodeError
| ConnectionError
| OSError.

Inductive result (A : Type) : Type :=
| Ok (a : A)
| Raise (e : exn).
Arguments Ok {A} a.
Arguments Raise {A} e.

(** The exception monad: [x ← m; k] runs [k] on the value of [m] and
    propagates what [m] raises. *)
#[export] Instance result_ret : MRet result := fun A a => Ok a.
#[export] Instance result_bind : MBind result := fun A B k m =>
  match m with
  | Ok a => k a
  | Raise e => Raise e
  end.

(** ** datetime.date *)

Record date : Type := Date { year : nat; month : nat; day : nat }.

(** Dates compare as the tuples (year, month, day). *)
Definition date_compare (a b : date) : comparison :=
  match Nat.compare (year a) (year b) with
  | Eq => match Nat.compare (month a) (month b) with
          | Eq => Nat.compare (day a) (day b)
          | c => c
          end
  | c => c
  end.

Definition date_leb (a b : date) : bool :=
  match date_compare a b with Gt => false | _ => true end.

Definition date_ltb (a b : date) : bool :=
  match date_compare a b with Lt => true | _ => false end.

(** [a >= b] on dates. *)
Definition date_geb (a b : date) : bool := date_leb b a.

Definition is_leap (y : nat) : bool :=
  (y mod 4 =? 0) && (negb (y mod 100 =? 0) || (y mod 400 =? 0)).

Definition days_in_month (y m : nat) : nat :=
  match m with
  | 2 => if is_leap y then 29 else 28
  | 4 | 6 | 9 | 11 => 30
  | _ => 31
  end.

(** The checks of the [datetime.date] constructor: MINYEAR = 1,
    MAXYEAR = 9999, and the day within the month. *)
Definition valid_date (y m d : nat) : bool :=
  (1 <=? y) && (y <=? 9999) && (1 <=? m) && (m <=? 12)
  && (1 <=? d) && (d <=? days_in_month y m).

(** *** strptime with the format [%Y%m%d]

    [_strptime] compiles the format to the regular expression
    [(?P<Y>\d\d\d\d)(?P<m>1[0-2]|0[1-9]|[1-9])(?P<d>3[0-1]|[1-2]\d|0[1-9]|[1-9]| [1-9])],
    matches it at the start of the string, raises [ValueError] when it does
    not match or when unconverted data remains after the match, and then
    builds the date (which raises [ValueError] on a day out of range).
    The alternatives are tried in the order in which they are written, and
    the first match is the one that is kept. *)

Definition is_digit (c : ascii) : bool :=
  (48 <=? nat_of_ascii c) && (nat_of_ascii c <=? 57).

Definition digit_val (c : ascii) : nat := nat_of_ascii c - 48.

Definition in_range (lo hi : nat) (c : ascii) : bool :=
  is_digit c && (lo <=? digit_val c) && (digit_val c <=? hi).

(** [\d\d\d\d] *)
Definition match_Y (s : list ascii) : option (nat * list ascii) :=
  match s with
  | a :: b :: c :: d :: rest =>
      if is_digit a && is_digit b && is_digit c && is_digit d
      then Some (1000 * digit_val a + 100 * digit_val b
                 + 10 * digit_val c + digit_val d, rest)
      else None
  | _ => None
  end.

(** The alternatives of [1[0-2]|0[1-9]|[1-9]] that match a prefix of [s],
    in the order of the expression. *)
Definition match_m (s : list ascii) : list (nat * list ascii) :=
  (match s with
   | a :: b :: rest =>
       (if Ascii.eqb a "1" && in_range 0 2 b
        then [(10 + digit_val b, rest)] else [])
       ++ (if Ascii.eqb a "0" && in_range 1 9 b
           then [(digit_val b, rest)] else [])
   | _ => []
   end)
  ++ (match s with
      | a :: rest => if in_range 1 9 a then [(digit_val a, rest)] else []
      | _ => []
      end).

(** The first alternative of [3[0-1]|[1-2]\d|0[1-9]|[1-9]| [1-9]] that
    matches a prefix of [s]. *)
Definition match_d (s : list ascii) : option (nat * list ascii) :=
  match s with
  | a :: b :: rest =>
      if Ascii.eqb a "3" && in_range 0 1 b then Some (30 + digit_val b, rest)
      else if in_range 1 2 a && is_digit b
           then Some (10 * digit_val a + digit_val b, rest)
      else if Ascii.eqb a "0" && in_range 1 9 b then Some (digit_val b, rest)
      else if in_range 1 9 a then Some (digit_val a, b :: rest)
      else if Ascii.eqb a " " && in_range 1 9 b then Some (digit_val b, rest)
      else None
  | [a] => if in_range 1 9 a then Some (digit_val a, []) else None
  | [] => None
  end.

(** The first month alternative after which the day matches. *)
Fixpoint match_md (ms : list (nat * list ascii))
  : option (nat * nat * list ascii) :=
  match ms with
  | [] => None
  | (m, rest) :: ms' =>
      match match_d rest with
      | Some (d, rest') => Some (m, d, rest')
      | None => match_md ms'
      end
  end.

(** [datetime.datetime.strptime(s, '%Y%m%d').date()]; [None] stands for
    the [ValueError]. *)
Definition strptime (s : string) : option date :=
  match match_Y (list_ascii_of_string s) with
  | None => None
  | Some (y, rest) =>
      match match_md (match_m rest) with
      | None => None
      | Some (m, d, rest') =>
          match rest' with
          | [] => if valid_date y m d then Some (Date y m d) else None
          | _ :: _ => None
          end
      end
  end.

(** [date.strftime('%Y_%m_%d')], for the four-digit years of the feed. *)
Definition digit_char (n : nat) : ascii := ascii_of_nat (48 + n mod 10).

Definition two_digits (n : nat) : string :=
  String (digit_char (n / 10)) (String (digit_char n) EmptyString).

Definition four_digits (n : nat) : string :=
  String (digit_char (n / 1000)) (String (digit_char (n / 100))
    (two_digits n)).

Definition strftime (d : date) : string :=
  four_digits (year d) ++ "_" ++ two_digits (month d) ++ "_"
  ++ two_digits (day d).

(** ** The records of the feed *)

(** A JSON value of a metric field: a number or [null]. *)
Inductive json : Type :=
| JNull
| JNum (z : Z).

(** One object of the JSON array: [state] is [str(entry['state'])],
    [date_field] is [str(entry['date'])] (the feed writes the date as the
    number 20200201), [fields] holds the other keys of the object. *)
Record entry : Type := Entry {
  state : string;
  date_field : string;
  fields : gmap string json
}.

(** A cell of the table: a number or [np.nan]. *)
Inductive cell : Type :=
| Val (z : Z)
| NaN.

(** ** ExtractDataFrame: the loop over the records (lines 57-97) *)

(** A mapping from the column of the data frame to the key of the JSON
    object. *)
Definition keys : list (string * string) :=
  [("cum_positive", "positive");
   ("cum_total", "total");
   ("curr_hosp", "hospitalizedCurrently");
   ("cum_hosp", "hospitalizedCumulative");
   ("curr_icu", "inIcuCurrently");
   ("cum_icu", "inIcuCumulative");
   ("curr_vent", "onVentilatorCurrently");
   ("cum_vent", "onVentilatorCumulative");
   ("cum_death", "death");
   ("new_death", "deathIncrease")].

(** A Python dict from column names to lists, in insertion order. *)
Definition columns_dict : Type := list (string * list cell).

(** [data[name] = []] *)
Fixpoint dict_init (name : string) (data : columns_dict) : columns_dict :=
  match data with
  | [] => [(name, [])]
  | (n, l) :: data' =>
      if String.eqb n name then (n, []) :: data'
      else (n, l) :: dict_init name data'
  end.

(** [data[name].append(v)], for a key that line 76 has put in the dict. *)
Fixpoint dict_append (name : string) (v : cell) (data : columns_dict)
  : columns_dict :=
  match data with
  | [] => []
  | (n, l) :: data' =>
      if String.eqb n name then (n, l ++ [v]) :: data'
      else (n, l) :: dict_append name v data'
  end.

(** Lines 91-97: the value appended for the JSON key [field] of [e]. *)
Definition extract (e : entry) (field : string) : cell :=
  match fields e !! field with
  | Some j =>
      match j with
      | JNum v => Val v
      | JNull => NaN
      end
  | None => NaN
  end.

(** The three accumulators of the loop. *)
Record acc : Type := Acc {
  indices : list (string * date);
  data : columns_dict;
  all_locations : list string
}.

(** Lines 69-79. *)
Definition acc_init : acc :=
  {| indices := [];
     data := fold_left (fun d key => dict_init (fst key) d) keys [];
     all_locations := [] |}.

(** Lines 83-97, one iteration. *)
Definition loop_body (start_date : date) (a : acc) (e : entry) : result acc :=
  match strptime (date_field e) with
  | None => Raise (ValueError (date_field e))
  | Some d =>
      let all_locations' := all_locations a ++ [state e] in
      if date_geb d start_date then
        Ok {| indices := indices a ++ [(state e, d)];
              data := fold_left
                        (fun dt key => dict_append (fst key) (extract e (snd key)) dt)
                        keys (data a);
              all_locations := all_locations' |}
      else
        Ok {| indices := indices a; data := data a;
              all_locations := all_locations' |}
  end.

(** Line 82: [for entry in json_data]. *)
Fixpoint loop (start_date : date) (json_data : list entry) (a : acc)
  : result acc :=
  match json_data with
  | [] => Ok a
  | e :: rest => a' ← loop_body start_date a e; loop start_date rest a'
  end.

(** ** pandas and numpy *)

(** [np.unique] on a list of strings: the sorted distinct values. *)
Fixpoint insert_str (s : string) (l : list string) : list string :=
  match l with
  | [] => [s]
  | x :: t =>
      match String.compare s x with
      | Lt => s :: l
      | Eq => l
      | Gt => x :: insert_str s t
      end
  end.

Definition np_unique (l : list string) : list string :=
  fold_right insert_str [] l.

(** A row of the frame: its index tuple [(state, date)] and one cell per
    column, in the order of the columns. *)
Record row : Type := Row {
  label : string * date;
  cells : list (string * cell)
}.

Record DataFrame : Type := Frame {
  columns : list string;
  rows : list row
}.

(** [pd.MultiIndex.from_tuples(tuples, names=['state', 'date'])]: with
    [names] given the call accepts any list of tuples, the empty list
    included, and keeps the tuples in their order, duplicates included. *)
Definition MultiIndex_from_tuples (tuples : list (string * date))
  : list (string * date) := tuples.

(** *** Fixed-width numbers

    A column of a frame has one dtype. For the values of this model,
    integers of the int64 range and [nan], pandas infers [int64] when the
    list holds integers only and [float64] as soon as it holds a [nan];
    the integers of a [float64] column are stored rounded to the nearest
    double. Lists with integers outside the int64 range (for which pandas
    chooses [uint64] or [object]) are outside the model: the statements
    about stored numbers assume the int64 range. *)

Inductive dtype : Type :=
| Int64
| Float64.

(** The double nearest to an integer, ties to the even mantissa, for the
    magnitudes below the overflow of a double: an integer of at most 53
    bits is kept, a longer one keeps its 53 leading bits, rounded. *)
Definition float64_of_Z (z : Z) : Z :=
  let a := Z.abs z in
  if (a <=? 2 ^ 53)%Z then z
  else
    let e := (Z.log2 a - 52)%Z in
    let q := Z.shiftr a e in
    let r := (a - Z.shiftl q e)%Z in
    let half := Z.shiftl 1 (e - 1) in
    let q' := if (half <? r)%Z || ((r =? half)%Z && Z.odd q)
              then (q + 1)%Z else q in
    (Z.sgn z * Z.shiftl q' e)%Z.

(** The value an int64 operation leaves: the result modulo 2^64, in the
    int64 range. *)
Definition wrap_int64 (z : Z) : Z :=
  ((z + 2 ^ 63) mod 2 ^ 64 - 2 ^ 63)%Z.

Definition is_nan (c : cell) : bool :=
  match c with
  | NaN => true
  | Val _ => false
  end.

(** The dtype inferred for a list of integers and [nan]. *)
Definition infer_dtype (col : list cell) : dtype :=
  if existsb is_nan col then Float64 else Int64.

Definition to_float64 (c : cell) : cell :=
  match c with
  | Val z => Val (float64_of_Z z)
  | NaN => NaN
  end.

(** A value as a column of dtype [dt] stores it. *)
Definition astype (dt : dtype) (c : cell) : cell :=
  match dt with
  | Float64 => to_float64 c
  | Int64 => c
  end.

(** The values of a list as the column built from it stores them. *)
Definition store_column (col : list cell) : list cell :=
  map (astype (infer_dtype col)) col.

(** The rows of a frame built from the columns [dt]: the row at position
    [i] takes the [i]-th value of every column. *)
Fixpoint zip_rows (dt : columns_dict) (i : nat) (index : list (string * date))
  : list row :=
  match index with
  | [] => []
  | k :: t =>
      {| label := k; cells := map (fun c => (fst c, nth i (snd c) NaN)) dt |}
      :: zip_rows dt (S i) t
  end.

(** [pd.DataFrame(data=data, index=index)]: one column per key of the
    dict, in insertion order, each stored in the dtype inferred for its
    list; every list must be as long as the index. *)
Definition pd_DataFrame (dt : columns_dict) (index : list (string * date))
  : result DataFrame :=
  if forallb (fun c => length (snd c) =? length index) dt then
    Ok {| columns := map fst dt;
          rows := zip_rows (map (fun c => (fst c, store_column (snd c))) dt)
                           0 index |}
  else Raise (ValueError "Length of values does not match length of index").

(** The order of [sort_index(level=1)]: the date level first, then (as
    [sort_remaining] is left at [True]) the state level. *)
Definition row_leb (a b : row) : bool :=
  match date_compare (snd (label a)) (snd (label b)) with
  | Lt => true
  | Gt => false
  | Eq => String.leb (fst (label a)) (fst (label b))
  end.

(** The sort is stable: rows with equal index tuples keep their order. *)
Fixpoint insert_row (r : row) (l : list row) : list row :=
  match l with
  | [] => [r]
  | x :: t => if row_leb r x then r :: l else x :: insert_row r t
  end.

Definition sort_rows (l : list row) : list row := fold_right insert_row [] l.

(** [df.sort_index(level=1, inplace=True)] *)
Definition sort_index_level1 (df : DataFrame) : DataFrame :=
  {| columns := columns df; rows := sort_rows (rows df) |}.

(** The distinct values of a list in the order of their first
    occurrence. *)
Fixpoint unique_first (l : list string) : list string :=
  match l with
  | [] => []
  | x :: t => x :: List.filter (fun y => negb (String.eqb y x)) (unique_first t)
  end.

(** [df.index.unique(level=0)] *)
Definition index_unique_level0 (df : DataFrame) : list string :=
  unique_first (map (fun r => fst (label r)) (rows df)).

(** [df.loc[st]]: the rows of the state, in the order of the frame. *)
Definition loc (st : string) (df : DataFrame) : list row :=
  List.filter (fun r => String.eqb (fst (label r)) st) (rows df).

Fixpoint lookup_cell (c : string) (l : list (string * cell)) : option cell :=
  match l with
  | [] => None
  | (n, v) :: t => if String.eqb n c then Some v else lookup_cell c t
  end.

(** [rows[c]]: the values of column [c]. *)
Definition column (c : string) (rs : list row) : list cell :=
  map (fun r => match lookup_cell c (cells r) with
                | Some v => v
                | None => NaN
                end) rs.

(** The dtype of column [c] of the frame: [float64] exactly when the
    column holds a [nan] (see [pd_DataFrame]). *)
Definition series_dtype (c : string) (df : DataFrame) : dtype :=
  infer_dtype (column c (rows df)).

(** Subtraction of two cells of dtype [dt]: int64 subtraction wraps,
    float64 subtraction rounds, [nan] on either side gives [nan]. *)
Definition cell_sub (dt : dtype) (a b : cell) : cell :=
  match a, b with
  | Val x, Val y =>
      match dt with
      | Int64 => Val (wrap_int64 (x - y))
      | Float64 => Val (float64_of_Z (x - y))
      end
  | _, _ => NaN
  end.

(** [np.diff] on an array of dtype [dt]: [out[i] = a[i+1] - a[i]]. *)
Fixpoint np_diff (dt : dtype) (a : list cell) : list cell :=
  match a with
  | [] => []
  | x :: t =>
      match t with
      | [] => []
      | y :: _ => cell_sub dt y x :: np_diff dt t
      end
  end.

(** [np.zeros(n)]: a float64 array of zeros. *)
Definition np_zeros (n : nat) : list cell := repeat (Val 0) n.

(** A value of dtype [dt] as a float64 array stores it. *)
Definition cast_float64 (dt : dtype) (c : cell) : cell :=
  match dt with
  | Int64 => to_float64 c
  | Float64 => c
  end.

(** [arr[k:] = vals] for a float64 array [arr] and an array [vals] of
    dtype [dt] and of the length of the slice: the values are cast. *)
Definition set_slice_from (k : nat) (arr : list cell) (dt : dtype)
    (vals : list cell) : list cell :=
  firstn k arr ++ map (cast_float64 dt) vals.

Definition set_cell (c : string) (v : cell) (r : row) : row :=
  {| label := label r;
     cells := map (fun nv => if String.eqb (fst nv) c then (fst nv, v) else nv)
                  (cells r) |}.

(** The column [c] is created, filled with [nan], when the frame does not
    have it. *)
Definition ensure_column (c : string) (df : DataFrame) : DataFrame :=
  if existsb (String.eqb c) (columns df) then df
  else {| columns := columns df ++ [c];
          rows := map (fun r => {| label := label r;
                                   cells := cells r ++ [(c, NaN)] |})
                      (rows df) |}.

(** The values are written, in their order, to the rows of the state. *)
Fixpoint assign (st c : string) (vals : list cell) (rs : list row)
  : list row :=
  match rs with
  | [] => []
  | r :: t =>
      if String.eqb (fst (label r)) st then
        match vals with
        | v :: vals' => set_cell c v r :: assign st c vals' t
        | [] => r :: t
        end
      else r :: assign st c vals t
  end.

(** [df.loc[st, c] = vals] for an array [vals]. *)
Definition loc_setitem (st c : string) (vals : list cell) (df : DataFrame)
  : DataFrame :=
  let df' := ensure_column c df in
  {| columns := columns df'; rows := assign st c vals (rows df') |}.

(** ** ExtractDataFrame: the table and the derived column (lines 99-114) *)

(** Lines 109-111, the body of the loop over the states. *)
Definition new_cases_step (df : DataFrame) (st : string) : DataFrame :=
  let dt := series_dtype "cum_positive" df in
  let cum := column "cum_positive" (loc st df) in
  let new_cases := np_zeros (length cum) in
  let new_cases := set_slice_from 1 new_cases dt (np_diff dt cum) in
  loc_setitem st "new_cases" new_cases df.

Definition ExtractDataFrame (json_data : list entry) (start_date : date)
  : result (DataFrame * list string) :=
  a ← loop start_date json_data acc_init;
  let all_locations := np_unique (all_locations a) in
  let index := MultiIndex_from_tuples (indices a) in
  df ← pd_DataFrame (data a) index;
  let df := sort_index_level1 df in
  let df := fold_left new_cases_step (index_unique_level0 df) df in
  Ok (df, all_locations).

(** ** GetData: the cache of the feed (lines 11-43) *)

(** What a call does to the outside world, in order. *)
Inductive event : Type :=
| ReadFile (filename : string)
| HttpGet (url : string)
| WriteFile (filename : string).

(** The outside world: the files with their text, the names under which
    [open(filename, 'w')] succeeds (the directory is there and may be
    written), the clock, what the feed answers ([None]: the request
    raises), and the events so far. *)
Record World : Type := MkWorld {
  files : gmap string string;
  writable : string -> bool;
  today : date;
  feed : option string;
  trace : list event
}.

Definition log (ev : event) (w : World) : World :=
  {| files := files w; writable := writable w; today := today w;
     feed := feed w; trace := trace w ++ [ev] |}.

(** The effect of [open(filename, 'w')] followed by the dump of [text],
    where the file can be opened. *)
Definition write_file (filename text : string) (w : World) : World :=
  {| files := <[filename := text]> (files w); writable := writable w;
     today := today w; feed := feed w;
     trace := trace w ++ [WriteFile filename] |}.

Definition url : string := "https://covidtracking.com/api/v1/states/daily.json".

Definition cache_filename (filepath : string) (d : date) : string :=
  (filepath ++ "covidtracking_data_" ++ strftime d ++ ".json")%string.

(** The files a trace has written. *)
Fixpoint writes (tr : list event) : list string :=
  match tr with
  | [] => []
  | WriteFile f :: t => f :: writes t
  | _ :: t => writes t
  end.

Section Fetcher.

(** The JSON parser and printer of the [json] module: [json_loads] is
    [None] on malformed text. *)
Variable json_loads : string -> option (list entry).
Variable json_dumps : list entry -> string.

Definition GetData (filepath : string) (run_date : option date) (w : World)
  : result (list entry) * World :=
  let run_day := match run_date with
                 | None => today w
                 | Some d => d
                 end in
  let filename := cache_filename filepath run_day in
  match files w !! filename with
  | Some text =>
      let w := log (ReadFile filename) w in
      match json_loads text with
      | Some all_data => (Ok all_data, w)
      | None => (Raise JSONDecodeError, w)
      end
  | None =>
      let w := log (HttpGet url) w in
      match feed w with
      | None => (Raise ConnectionError, w)
      | Some text =>
          match json_loads text with
          | None => (Raise JSONDecodeError, w)
          | Some all_data =>
              if writable w filename
              then (Ok all_data, write_file filename (json_dumps all_data) w)
              else (Raise OSError, w)
          end
      end
  end.

End Fetcher.

(** * Vocabulary of the statements *)

(** The order of the tuples (year, month, day). *)
Definition date_lt_tuple (a b : date) : Prop :=
  year a < year b
  \/ (year a = year b
      /\ (month a < month b \/ (month a = month b /\ day a < day b))).

(** The strict order of [np.unique] on strings. *)
Definition str_lt (a b : string) : Prop := String.compare a b = Lt.


(** The date of the record parses. *)
Definition parses (e : entry) : Prop := strptime (date_field e) <> None.

(** The records that pass the filter of line 88, each with its parsed
    date, in the order of the input. *)
Fixpoint qualifying (start_date : date) (json_data : list entry)
  : list (entry * date) :=
  match json_data with
  | [] => []
  | e :: rest =>
      match strptime (date_field e) with
      | Some d =>
          if date_geb d start_date
          then (e, d) :: qualifying start_date rest
          else qualifying start_date rest
      | None => qualifying start_date rest
      end
  end.

(** The index tuple of a qualifying record. *)
Definition label_of (ed : entry * date) : string * date :=
  (state (fst ed), snd ed).

(** The numbers that the records hold under the keys of [keys] are in
    the int64 range: the feeds for which [dtype] describes the columns. *)
Definition in_int64 (z : Z) : bool :=
  ((- 2 ^ 63 <=? z) && (z <? 2 ^ 63))%Z.

Definition int64_cell (c : cell) : bool :=
  match c with
  | Val z => in_int64 z
  | NaN => true
  end.

Definition int64_feed (json_data : list entry) : bool :=
  forallb (fun e => forallb (fun k => int64_cell (extract e (snd k))) keys)
          json_data.

(** What the column of the JSON key [field] stores for the record [e]
    when the frame is built from the records [es]. *)
Definition stored (es : list entry) (field : string) (e : entry) : cell :=
  astype (infer_dtype (map (fun x => extract x field) es)) (extract e field).

(** The row a qualifying record contributes, before the derived column,
    to the frame built from the records [es]. *)
Definition extracted_row (es : list entry) (ed : entry * date) : row :=
  {| label := label_of ed;
     cells := map (fun k => (fst k, stored es (snd k) (fst ed))) keys |}.

(** The dict [data] after the records [es] were appended. *)
Definition columns_of (es : list entry) : columns_dict :=
  map (fun k => (fst k, map (fun e => extract e (snd k)) es)) keys.

Definition row_le (a b : row) : Prop := row_leb a b = true.

(** The cell of column [c] in a row, [None] when the row has no such
    column. *)
Definition cell_of (c : string) (r : row) : option cell :=
  lookup_cell c (cells r).

(** The rows of one state, in the order of the list ([df.loc[st]]). *)
Definition rows_of (st : string) (rs : list row) : list row :=
  List.filter (fun r => String.eqb (fst (label r)) st) rs.

(** Two rows with the same index tuple that agree on every column but
    [c]. *)
Definition agree_except (c : string) (r' r : row) : Prop :=
  label r' = label r
  /\ forall c', c' <> c -> cell_of c' r' = cell_of c' r.

(** Every row has exactly the columns of the frame. *)
Definition wf_frame (df : DataFrame) : Prop :=
  Forall (fun r => map fst (cells r) = columns df) (rows df).

(** The array assigned to the rows of a state on lines 109-111. *)
Definition new_cases_of (dt : dtype) (cum : list cell) : list cell :=
  set_slice_from 1 (np_zeros (length cum)) dt (np_diff dt cum).

(** The frame of line 104, after the sort and before the derived
    column. *)
Definition base_frame (start_date : date) (json_data : list entry)
  : DataFrame :=
  sort_index_level1
    {| columns := map fst keys;
       rows := map (extracted_row
                      (map fst (qualifying start_date json_data)))
                   (qualifying start_date json_data) |}.

(** The frame [ExtractDataFrame] returns when every date parses. *)
Definition reshaped (start_date : date) (json_data : list entry)
  : DataFrame :=
  fold_left new_cases_step
            (index_unique_level0 (base_frame start_date json_data))
            (base_frame start_date json_data).

(** * Sample records *)

Definition start_feb1 : date := Date 2020 2 1.

Definition AZ_feb1 : entry :=
  {| state := "AZ"; date_field := "20200201";
     fields := {[ "positive" := JNum 10 ]} |}.

Definition AZ_feb2 : entry :=
  {| state := "AZ"; date_field := "20200202";
     fields := {[ "positive" := JNum 15 ]} |}.

(** A record of January, before [start_feb1]. *)
Definition NY_jan31 : entry :=
  {| state := "NY"; date_field := "20200131";
     fields := {[ "positive" := JNum 3 ]} |}.

(** A record without the [hospitalizedCurrently] key, with a [null]
    [death] and a reported [total]. *)
Definition WA_feb3 : entry :=
  {| state := "WA"; date_field := "20200203";
     fields := {[ "positive" := JNum 4; "total" := JNum 40;
                  "death" := JNull ]} |}.

(** A record whose date is not a calendar date. *)
Definition AZ_bad : entry :=
  {| state := "AZ"; date_field := "20200230"; fields := ∅ |}.

(** The date of [a] is on or before the date of [b]. *)
Definition not_after (a b : row) : Prop :=
  date_leb (snd (label a)) (snd (label b)) = true.

(** The date of [a] is strictly before the date of [b]. *)
Definition before (a b : row) : Prop :=
  date_ltb (snd (label a)) (snd (label b)) = true.

Definition AZ_nan : entry :=
  {| state := "AZ"; date_field := "20200203"; fields := ∅ |}.

(** Two records of one state whose counts are 0 and 2^53 + 1, the
    smallest positive integer that is not a double. *)
Definition AZ_zero : entry :=
  {| state := "AZ"; date_field := "20200201";
     fields := {[ "positive" := JNum 0 ]} |}.

Definition AZ_big : entry :=
  {| state := "AZ"; date_field := "20200202";
     fields := {[ "positive" := JNum 9007199254740993 ]} |}.

(** The day a call of [GetData] stamps its cache file with. *)
Definition run_day (run_date : option date) (w : World) : date :=
  match run_date with
  | None => today w
  | Some d => d
  end.

(** A parser and a printer for the sample worlds: every text holds the
    one record [AZ_feb1]. *)
Definition sample_loads (text : string) : option (list entry) :=
  Some [AZ_feb1].

Definition sample_dumps (all_data : list entry) : string := "[AZ_feb1]".

(** A world with an empty cache directory whose feed answers, and one
    whose cache file of 2020-02-01 is there while the feed is down. *)
Definition world_empty : World :=
  {| files := ∅; writable := fun _ => true; today := Date 2020 2 1;
     feed := Some "[AZ_feb1]"; trace := [] |}.

Definition world_cached : World :=
  {| files := {[ "./covidtracking_data_2020_02_01.json" := "[AZ_feb1]" ]};
     writable := fun _ => true; today := Date 2020 3 1; feed := None;
     trace := [] |}.

(** * Vocabulary of the further properties *)

(** The test of line 88 on one record. *)
Definition qualifies (start_date : date) (e : entry) : bool :=
  match strptime (date_field e) with
  | Some d => date_geb d start_date
  | None => false
  end.

(** The differences of successive numbers, and the sum of a list. *)
Fixpoint zdiff (zs : list Z) : list Z :=
  match zs with
  | [] => []
  | x :: t =>
      match t with
      | [] => []
      | y :: _ => (y - x)%Z :: zdiff t
      end
  end.

Definition zsum (zs : list Z) : Z := fold_right Z.add 0%Z zs.

(** A parser that accepts one text only, and worlds for it: the cache
    file of 2020-02-01 holds a text that does not parse while the feed
    is fine; the feed answers a text that does not parse. *)
Definition picky_loads (text : string) : option (list entry) :=
  if String.eqb text "[AZ_feb1]" then Some [AZ_feb1] else None.

Definition world_corrupt : World :=
  {| files := {[ "./covidtracking_data_2020_02_01.json" := "<html>" ]};
     writable := fun _ => true; today := Date 2020 2 1;
     feed := Some "[AZ_feb1]"; trace := [] |}.

Definition world_bad_feed : World :=
  {| files := ∅; writable := fun _ => true; today := Date 2020 2 1;
     feed := Some "<html>"; trace := [] |}.

(** A day later the feed answers well, in a world where the file can be
    written and in one where the directory of the cache is missing. *)
Definition world_good_feed : World :=
  {| files := ∅; writable := fun _ => true; today := Date 2020 2 2;
     feed := Some "[AZ_feb1]"; trace := [] |}.

Definition world_no_directory : World :=
  {| files := ∅; writable := fun _ => false; today := Date 2020 2 2;
     feed := Some "[AZ_feb1]"; trace := [] |}.

(** The eight digits YYYYMMDD of a date, as the feed writes them. *)
Definition canonical_date (y m d : nat) : string :=
  (four_digits y ++ two_digits m ++ two_digits d)%string.

(** The month and the day are read back from their four digits. *)
Definition month_day_read_back (m d : nat) : bool :=
  match match_md (match_m [digit_char (m / 10); digit_char m;
                           digit_char (d / 10); digit_char d]) with
  | Some (m', d', []) => (m' =? m) && (d' =? d)
  | _ => false
  end.

(** * The main program (lines 117-125), up to the call of the plot *)

(** How the run ends: the series handed to [plt.plot], an exception of
    the fetch or of the reshaping, or a [KeyError] of an indexing. *)
Inductive outcome : Type :=
| Plotted (series : list (date * cell))
| Failed (e : exn)
| KeyError (key : string).

(** [df.loc[st]] on the frame: the rows of the state, indexed by their
    date; [None] stands for the [KeyError] raised when no row has the
    state. *)
Definition loc_checked (st : string) (df : DataFrame) : option DataFrame :=
  match loc st df with
  | [] => None
  | r :: rs => Some {| columns := columns df; rows := r :: rs |}
  end.

(** [df[c]]: the values of a column with the dates of their rows; [None]
    stands for the [KeyError] raised when the frame has no such column. *)
Definition getitem (c : string) (df : DataFrame)
  : option (list (date * cell)) :=
  if existsb (String.eqb c) (columns df)
  then Some (map (fun r => (snd (label r),
                            match lookup_cell c (cells r) with
                            | Some v => v
                            | None => NaN
                            end)) (rows df))
  else None.

Section Main.

Variable json_loads : string -> option (list entry).
Variable json_dumps : list entry -> string.

Definition main (w : World) : outcome * World :=
  let start_date := Date 2020 2 1 in
  let fetched := GetData json_loads json_dumps "./" (Some start_date) w in
  match fst fetched with
  | Raise e => (Failed e, snd fetched)
  | Ok json =>
      match ExtractDataFrame json start_date with
      | Raise e => (Failed e, snd fetched)
      | Ok (df, locs) =>
          let state := "AZ" in
          match loc_checked state df with
          | None => (KeyError state, snd fetched)
          | Some sub =>
              match getitem "new_cases" sub with
              | None => (KeyError "new_cases", snd fetched)
              | Some series => (Plotted series, snd fetched)
              end
          end
      end
  end.

End Main.

(** The cache file of the main program. *)
Definition main_cache : string := "./covidtracking_data_2020_02_01.json".

(** A world whose clock is months after the start date, with the cache
    file of the start date in place, and one whose feed has no record of
    "AZ". *)
Definition world_later : World :=
  {| files := {[ main_cache := "[AZ_feb1]" ]};
     writable := fun _ => true; today := Date 2020 8 1;
     feed := Some "<html>"; trace := [] |}.

Definition loads_NY (text : string) : option (list entry) := Some [NY_jan31].
(** * Facts *)

(** ** Orders on dates and strings *)

Lemma date_compare_Lt a b : date_compare a b = Lt <-> date_lt_tuple a b.
Proof.
  unfold date_compare, date_lt_tuple.
  destruct (Nat.compare_spec (year a) (year b));
    destruct (Nat.compare_spec (month a) (month b));
    destruct (Nat.compare_spec (day a) (day b));
    split; intros; try discriminate; try reflexivity; lia.
Qed.

Lemma date_compare_Gt a b : date_compare a b = Gt <-> date_lt_tuple b a.
Proof.
  unfold date_compare, date_lt_tuple.
  destruct (Nat.compare_spec (year a) (year b));
    destruct (Nat.compare_spec (month a) (month b));
    destruct (Nat.compare_spec (day a) (day b));
    split; intros; try discriminate; try reflexivity; lia.
Qed.

Lemma date_compare_Eq a b : date_compare a b = Eq <-> a = b.
Proof.
  destruct a as [ya ma da], b as [yb mb db]. unfold date_compare. simpl.
  destruct (Nat.compare_spec ya yb);
    destruct (Nat.compare_spec ma mb);
    destruct (Nat.compare_spec da db);
    split; intros E; try discriminate; try reflexivity;
    try (subst; reflexivity); injection E; lia.
Qed.

Lemma date_compare_refl a : date_compare a a = Eq.
Proof. now apply date_compare_Eq. Qed.

Lemma date_leb_le a b : date_leb a b = true <-> (date_lt_tuple a b \/ a = b).
Proof.
  unfold date_leb. destruct (date_compare a b) eqn:E.
  - apply date_compare_Eq in E. tauto.
  - apply date_compare_Lt in E. tauto.
  - apply date_compare_Gt in E. split; [discriminate|].
    intros [L | ->]; unfold date_lt_tuple in *; lia.
Qed.

Lemma date_leb_trans a b c :
  date_leb a b = true -> date_leb b c = true -> date_leb a c = true.
Proof.
  rewrite !date_leb_le.
  intros [L1 | ->] [L2 | ->]; auto.
  left. unfold date_lt_tuple in *. lia.
Qed.

Lemma date_ltb_lt a b : date_ltb a b = true <-> date_lt_tuple a b.
Proof.
  unfold date_ltb. rewrite <- date_compare_Lt.
  destruct (date_compare a b); split; congruence.
Qed.

Lemma date_ltb_irrefl a : date_ltb a a = false.
Proof. unfold date_ltb. now rewrite date_compare_refl. Qed.

Lemma ascii_compare_refl a : Ascii.compare a a = Eq.
Proof. apply N.compare_refl. Qed.

Lemma str_compare_refl s : String.compare s s = Eq.
Proof.
  induction s as [|a s IH]; simpl; [reflexivity|].
  now rewrite ascii_compare_refl.
Qed.

Lemma str_compare_lt_trans a b c :
  String.compare a b = Lt -> String.compare b c = Lt -> String.compare a c = Lt.
Proof.
  revert b c. induction a as [|x a IH]; intros [|y b] [|z c]; simpl;
    try congruence.
  unfold Ascii.compare.
  destruct (N.compare_spec (N_of_ascii x) (N_of_ascii y));
    destruct (N.compare_spec (N_of_ascii y) (N_of_ascii z));
    destruct (N.compare_spec (N_of_ascii x) (N_of_ascii z));
    intros; try congruence; try lia; eauto.
Qed.

Lemma str_compare_gt_lt a b : String.compare a b = Gt -> String.compare b a = Lt.
Proof.
  intros H. rewrite String.compare_antisym, H. reflexivity.
Qed.

Lemma str_leb_trans a b c :
  String.leb a b = true -> String.leb b c = true -> String.leb a c = true.
Proof.
  unfold String.leb.
  destruct (String.compare a b) eqn:E1; try discriminate;
    destruct (String.compare b c) eqn:E2; try discriminate; intros _ _.
  - apply String.compare_eq_iff in E1, E2. subst. now rewrite str_compare_refl.
  - apply String.compare_eq_iff in E1. subst. now rewrite E2.
  - apply String.compare_eq_iff in E2. subst. now rewrite E1.
  - now rewrite (str_compare_lt_trans _ _ _ E1 E2).
Qed.

(** ** np.unique *)

Lemma str_lt_irrefl a : ~ str_lt a a.
Proof. unfold str_lt. rewrite str_compare_refl. discriminate. Qed.

Lemma insert_str_In s x l : In s (insert_str x l) <-> s = x \/ In s l.
Proof.
  induction l as [|y t IH]; simpl.
  - intuition.
  - destruct (String.compare x y) eqn:E; simpl.
    + apply String.compare_eq_iff in E. subst. intuition.
    + intuition.
    + rewrite IH. intuition.
Qed.

Lemma insert_str_sorted x l :
  StronglySorted str_lt l -> StronglySorted str_lt (insert_str x l).
Proof.
  induction l as [|y t IH]; simpl; intros S.
  - constructor; [constructor | constructor].
  - inversion S as [|? ? St Ft]; subst.
    destruct (String.compare x y) eqn:E.
    + exact S.
    + constructor; [exact S|]. constructor; [exact E|].
      rewrite List.Forall_forall in Ft |- *. intros z Hz.
      exact (str_compare_lt_trans _ _ _ E (Ft z Hz)).
    + constructor; [auto|]. apply List.Forall_forall. intros z Hz.
      apply insert_str_In in Hz. destruct Hz as [-> | Hz].
      * now apply str_compare_gt_lt.
      * rewrite List.Forall_forall in Ft. auto.
Qed.

Lemma np_unique_In s l : In s (np_unique l) <-> In s l.
Proof.
  induction l as [|x t IH]; simpl; [tauto|].
  rewrite insert_str_In, IH. intuition.
Qed.

Lemma np_unique_sorted l : StronglySorted str_lt (np_unique l).
Proof.
  induction l as [|x t IH]; simpl; [constructor|].
  now apply insert_str_sorted.
Qed.

Lemma strictly_sorted_NoDup l : StronglySorted str_lt l -> NoDup l.
Proof.
  induction 1 as [|x t St IH Ft]; constructor; auto.
  intros Hin. rewrite List.Forall_forall in Ft.
  exact (str_lt_irrefl x (Ft x Hin)).
Qed.

(** ** The loop over the records *)

Lemma acc_init_data : data acc_init = columns_of [].
Proof. reflexivity. Qed.

Lemma inner_loop e es :
  fold_left (fun dt key => dict_append (fst key) (extract e (snd key)) dt)
            keys (columns_of es)
  = columns_of (es ++ [e]).
Proof.
  unfold columns_of, keys. cbn. rewrite !map_app. reflexivity.
Qed.

Lemma loop_ok start json : forall a es,
  data a = columns_of es ->
  Forall parses json ->
  loop start json a
  = Ok {| indices := indices a ++ map label_of (qualifying start json);
          data := columns_of (es ++ map fst (qualifying start json));
          all_locations := all_locations a ++ map state json |}.
Proof.
  induction json as [|e rest IH]; intros a es Hd Hp; simpl.
  - rewrite !app_nil_r. destruct a; simpl in *; subst; reflexivity.
  - inversion Hp as [|? ? He Hrest]; subst.
    unfold loop_body. unfold parses in He.
    destruct (strptime (date_field e)) as [d|] eqn:Ed; [|congruence].
    destruct (date_geb d start) eqn:Eg; cbn.
    + rewrite (IH _ (es ++ [e])); [..|assumption].
      * cbn. rewrite <- !app_assoc. reflexivity.
      * cbn. rewrite Hd. apply inner_loop.
    + rewrite (IH _ es); [..|assumption].
      * cbn. rewrite <- !app_assoc. reflexivity.
      * exact Hd.
Qed.

Lemma loop_body_parses start a e a' :
  loop_body start a e = Ok a' -> parses e.
Proof.
  unfold loop_body, parses.
  destruct (strptime (date_field e)); [discriminate | discriminate].
Qed.

Lemma loop_Ok_parses start json : forall a a',
  loop start json a = Ok a' -> Forall parses json.
Proof.
  induction json as [|e rest IH]; intros a a' H; [constructor|].
  simpl in H.
  destruct (loop_body start a e) as [a1|x] eqn:E; [|discriminate].
  constructor; [eapply loop_body_parses; eauto | eapply IH; eauto].
Qed.

Lemma loop_raise start pre e post : forall a,
  Forall parses pre ->
  strptime (date_field e) = None ->
  loop start (pre ++ e :: post) a = Raise (ValueError (date_field e)).
Proof.
  induction pre as [|p pre IH]; intros a Hp He; simpl.
  - unfold loop_body. rewrite He. reflexivity.
  - inversion Hp as [|? ? Hp1 Hp2]; subst. unfold parses in Hp1.
    unfold loop_body at 1.
    destruct (strptime (date_field p)) as [d|]; [|congruence].
    destruct (date_geb d start); cbn; apply IH; assumption.
Qed.

(** ** pd.DataFrame *)

Lemma columns_of_lengths (es : list entry) (index : list (string * date)) :
  length index = length es ->
  forallb (fun c => length (snd c) =? length index) (columns_of es) = true.
Proof.
  intros H. unfold columns_of. rewrite forallb_forall.
  intros c Hc. apply in_map_iff in Hc. destruct Hc as [k [<- _]].
  simpl. rewrite length_map, H. apply Nat.eqb_refl.
Qed.

Lemma zip_rows_extracted es : forall suf pre,
  es = map fst (pre ++ suf) ->
  zip_rows (map (fun c => (fst c, store_column (snd c))) (columns_of es))
           (length pre) (map label_of suf)
  = map (extracted_row es) suf.
Proof.
  induction suf as [|ed suf IH]; intros pre E; cbn [map zip_rows];
    [reflexivity|].
  f_equal.
  - unfold extracted_row. f_equal. unfold columns_of. rewrite !map_map.
    apply map_ext. intros k. cbn [fst snd]. f_equal.
    unfold store_column, stored.
    set (dt := infer_dtype (map (fun e => extract e (snd k)) es)).
    clearbody dt. rewrite map_map.
    subst es. rewrite map_app, map_app. cbn [map].
    replace (length pre)
      with (length (map (fun x => astype dt (extract x (snd k)))
                        (map fst pre)))
      by now rewrite !length_map.
    apply nth_middle.
  - specialize (IH (pre ++ [ed])).
    rewrite <- app_assoc, length_app in IH. simpl in IH.
    rewrite Nat.add_1_r in IH. exact (IH E).
Qed.

Lemma pd_DataFrame_ok qs :
  pd_DataFrame (columns_of (map fst qs)) (map label_of qs)
  = Ok {| columns := map fst keys;
          rows := map (extracted_row (map fst qs)) qs |}.
Proof.
  unfold pd_DataFrame.
  rewrite columns_of_lengths by now rewrite !length_map.
  f_equal.
  replace (map fst (columns_of (map fst qs))) with (map fst keys)
    by (unfold columns_of; rewrite map_map; reflexivity).
  f_equal.
  exact (zip_rows_extracted (map fst qs) qs [] eq_refl).
Qed.

(** ** sort_index *)

Lemma row_leb_total a b : row_leb a b = false -> row_leb b a = true.
Proof.
  unfold row_leb.
  destruct (date_compare (snd (label a)) (snd (label b))) eqn:E.
  - apply date_compare_Eq in E. rewrite E, date_compare_refl.
    intros H. destruct (String.leb_total (fst (label a)) (fst (label b)));
      congruence.
  - discriminate.
  - intros _. apply date_compare_Gt, date_compare_Lt in E. now rewrite E.
Qed.

Lemma row_leb_date a b :
  row_leb a b = true -> date_leb (snd (label a)) (snd (label b)) = true.
Proof.
  unfold row_leb, date_leb.
  destruct (date_compare (snd (label a)) (snd (label b)));
    [reflexivity | reflexivity | discriminate].
Qed.

Lemma row_leb_trans a b c :
  row_leb a b = true -> row_leb b c = true -> row_leb a c = true.
Proof.
  unfold row_leb.
  destruct (date_compare (snd (label a)) (snd (label b))) eqn:E1;
    [| |discriminate];
    (destruct (date_compare (snd (label b)) (snd (label c))) eqn:E2;
     [| |discriminate]).
  - apply date_compare_Eq in E1, E2. rewrite E1, E2, date_compare_refl.
    apply str_leb_trans.
  - apply date_compare_Eq in E1. rewrite E1, E2. reflexivity.
  - apply date_compare_Eq in E2. rewrite <- E2, E1. reflexivity.
  - intros _ _. apply date_compare_Lt in E1, E2.
    assert (L : date_lt_tuple (snd (label a)) (snd (label c)))
      by (unfold date_lt_tuple in *; lia).
    apply date_compare_Lt in L. now rewrite L.
Qed.

Lemma insert_row_perm r l : Permutation (insert_row r l) (r :: l).
Proof.
  induction l as [|x t IH]; simpl; [reflexivity|].
  destruct (row_leb r x); [reflexivity|].
  rewrite IH. apply perm_swap.
Qed.

Lemma sort_rows_perm l : Permutation (sort_rows l) l.
Proof.
  induction l as [|x t IH]; simpl; [reflexivity|].
  rewrite insert_row_perm. now constructor.
Qed.

Lemma insert_row_sorted r l :
  StronglySorted row_le l -> StronglySorted row_le (insert_row r l).
Proof.
  induction l as [|x t IH]; simpl; intros S.
  - repeat constructor.
  - inversion S as [|? ? St Ft]; subst.
    destruct (row_leb r x) eqn:E.
    + constructor; [exact S|]. constructor; [exact E|].
      rewrite List.Forall_forall in Ft |- *. intros z Hz.
      exact (row_leb_trans _ _ _ E (Ft z Hz)).
    + constructor; [auto|]. apply List.Forall_forall. intros z Hz.
      apply (Permutation_in _ (insert_row_perm r t)) in Hz.
      destruct Hz as [<- | Hz].
      * now apply row_leb_total.
      * rewrite List.Forall_forall in Ft. auto.
Qed.

Lemma sort_rows_sorted l : StronglySorted row_le (sort_rows l).
Proof.
  induction l as [|x t IH]; simpl; [constructor|].
  now apply insert_row_sorted.
Qed.

(** ** Cells, columns and assignment *)

Lemma lookup_cell_app_other c c' v l :
  c' <> c -> lookup_cell c' (l ++ [(c, v)]) = lookup_cell c' l.
Proof.
  intros N. induction l as [|[n x] t IH]; simpl.
  - destruct (String.eqb_spec c c'); congruence.
  - destruct (String.eqb n c'); auto.
Qed.

Lemma lookup_cell_set_same c v l :
  In c (map fst l) ->
  lookup_cell c (map (fun nv => if String.eqb (fst nv) c then (fst nv, v) else nv) l)
  = Some v.
Proof.
  induction l as [|[n x] t IH]; simpl; [tauto|].
  intros [-> | H].
  - rewrite String.eqb_refl. simpl. now rewrite String.eqb_refl.
  - destruct (String.eqb_spec n c) as [->|N]; simpl.
    + now rewrite String.eqb_refl.
    + destruct (String.eqb_spec n c); [congruence | auto].
Qed.

Lemma lookup_cell_set_other c c' v l :
  c' <> c ->
  lookup_cell c' (map (fun nv => if String.eqb (fst nv) c then (fst nv, v) else nv) l)
  = lookup_cell c' l.
Proof.
  intros N. induction l as [|[n x] t IH]; simpl; [reflexivity|].
  destruct (String.eqb_spec n c) as [->|N1]; simpl.
  - destruct (String.eqb_spec c c'); [congruence | auto].
  - destruct (String.eqb n c'); auto.
Qed.

Lemma set_cell_names c v r : map fst (cells (set_cell c v r)) = map fst (cells r).
Proof.
  unfold set_cell. simpl. rewrite map_map. apply map_ext.
  intros [n x]. simpl. now destruct (String.eqb n c).
Qed.

Lemma set_cell_agree c v r : agree_except c (set_cell c v r) r.
Proof.
  split; [reflexivity|]. intros c' N. unfold cell_of, set_cell. simpl.
  now apply lookup_cell_set_other.
Qed.

Lemma agree_except_refl c r : agree_except c r r.
Proof. split; auto. Qed.

Lemma agree_except_trans c r1 r2 r3 :
  agree_except c r1 r2 -> agree_except c r2 r3 -> agree_except c r1 r3.
Proof.
  intros [L1 C1] [L2 C2]. split; [congruence|].
  intros c' N. rewrite C1, C2; auto.
Qed.

Lemma agree_list_refl c l : Forall2 (agree_except c) l l.
Proof. induction l; constructor; auto using agree_except_refl. Qed.

Lemma agree_list_trans c l1 : forall l2 l3,
  Forall2 (agree_except c) l1 l2 -> Forall2 (agree_except c) l2 l3 ->
  Forall2 (agree_except c) l1 l3.
Proof.
  induction l1 as [|a l1 IH]; intros l2 l3 H12 H23.
  - inversion H12; subst. inversion H23; subst. constructor.
  - inversion H12; subst. inversion H23; subst. constructor.
    + eapply agree_except_trans; eauto.
    + eapply IH; eauto.
Qed.

Lemma agree_list_labels c l' l :
  Forall2 (agree_except c) l' l -> map label l' = map label l.
Proof.
  induction 1 as [|r' r t' t [L _] _ IH]; simpl; congruence.
Qed.

Lemma agree_list_rows_of c st l' l :
  Forall2 (agree_except c) l' l ->
  Forall2 (agree_except c) (rows_of st l') (rows_of st l).
Proof.
  induction 1 as [|r' r t' t A _ IH]; simpl; [constructor|].
  destruct A as [L C]. rewrite L.
  destruct (String.eqb (fst (label r)) st); [constructor|]; auto.
  split; auto.
Qed.

Lemma agree_list_column c c' l' l :
  c' <> c -> Forall2 (agree_except c) l' l -> column c' l' = column c' l.
Proof.
  intros N. induction 1 as [|r' r t' t [L C] _ IH]; simpl; [reflexivity|].
  f_equal; [|exact IH].
  specialize (C c' N). unfold cell_of in C. now rewrite C.
Qed.

Lemma agree_list_length c l' l :
  Forall2 (agree_except c) l' l -> length l' = length l.
Proof. induction 1; simpl; congruence. Qed.

Lemma assign_agree st c : forall rs vals,
  Forall2 (agree_except c) (assign st c vals rs) rs.
Proof.
  induction rs as [|r t IH]; intros vals; simpl; [constructor|].
  destruct (String.eqb (fst (label r)) st).
  - destruct vals as [|v vals'].
    + apply agree_list_refl.
    + constructor; [apply set_cell_agree | apply IH].
  - constructor; [apply agree_except_refl | apply IH].
Qed.

Lemma assign_names st c : forall rs vals cols,
  Forall (fun r => map fst (cells r) = cols) rs ->
  Forall (fun r => map fst (cells r) = cols) (assign st c vals rs).
Proof.
  induction rs as [|r t IH]; intros vals cols H; simpl; [constructor|].
  inversion H as [|? ? Hr Ht]; subst.
  destruct (String.eqb (fst (label r)) st).
  - destruct vals as [|v vals']; [exact H|].
    constructor; [now rewrite set_cell_names | now apply IH].
  - constructor; [reflexivity | now apply IH].
Qed.

Lemma assign_other st st' c : forall rs vals,
  st' <> st -> rows_of st' (assign st c vals rs) = rows_of st' rs.
Proof.
  induction rs as [|r t IH]; intros vals N; simpl; [reflexivity|].
  destruct (String.eqb_spec (fst (label r)) st) as [E|E].
  - destruct vals as [|v vals']; [reflexivity|]. simpl.
    destruct (String.eqb_spec (fst (label r)) st'); [congruence|].
    now apply IH.
  - simpl. destruct (String.eqb (fst (label r)) st'); [f_equal|]; now apply IH.
Qed.

Lemma assign_same st c : forall rs vals,
  length vals = length (rows_of st rs) ->
  rows_of st (assign st c vals rs)
  = map (fun p => set_cell c (fst p) (snd p)) (combine vals (rows_of st rs)).
Proof.
  induction rs as [|r t IH]; intros vals H; simpl in *.
  - now destruct vals.
  - destruct (String.eqb (fst (label r)) st) eqn:E.
    + destruct vals as [|v vals']; [discriminate|]. simpl in *.
      rewrite E. f_equal. apply IH. lia.
    + simpl. rewrite E. now apply IH.
Qed.

Lemma set_cells_read c : forall vals rs,
  length vals = length rs ->
  Forall (fun r => In c (map fst (cells r))) rs ->
  map (cell_of c) (map (fun p => set_cell c (fst p) (snd p)) (combine vals rs))
  = map Some vals.
Proof.
  induction vals as [|v vals IH]; intros [|r rs] L F; simpl in *;
    try discriminate; [reflexivity|].
  inversion F as [|? ? Hr Hrs]; subst. f_equal.
  - unfold cell_of, set_cell. simpl. now apply lookup_cell_set_same.
  - apply IH; [lia | assumption].
Qed.

Lemma ensure_column_id c df : In c (columns df) -> ensure_column c df = df.
Proof.
  intros H. unfold ensure_column.
  replace (existsb (String.eqb c) (columns df)) with true; [reflexivity|].
  symmetry. apply existsb_exists. exists c. split; [assumption|].
  apply String.eqb_refl.
Qed.

Lemma ensure_column_has c df : In c (columns (ensure_column c df)).
Proof.
  unfold ensure_column.
  destruct (existsb (String.eqb c) (columns df)) eqn:E.
  - apply existsb_exists in E. destruct E as [x [Hx Ex]].
    apply String.eqb_eq in Ex. now subst.
  - simpl. apply in_or_app. right. now left.
Qed.

Lemma ensure_column_agree c df :
  Forall2 (agree_except c) (rows (ensure_column c df)) (rows df).
Proof.
  unfold ensure_column.
  destruct (existsb (String.eqb c) (columns df)); [apply agree_list_refl|].
  simpl. induction (rows df) as [|r t IH]; simpl; constructor; [|exact IH].
  split; [reflexivity|]. intros c' N. unfold cell_of. simpl.
  now apply lookup_cell_app_other.
Qed.

Lemma ensure_column_wf c df : wf_frame df -> wf_frame (ensure_column c df).
Proof.
  unfold ensure_column, wf_frame.
  destruct (existsb (String.eqb c) (columns df)); [auto|].
  simpl. intros H. apply List.Forall_forall. intros r Hr.
  apply in_map_iff in Hr. destruct Hr as [r0 [<- Hr0]]. simpl.
  rewrite List.Forall_forall in H. rewrite map_app, (H r0 Hr0). reflexivity.
Qed.

(** ** Fixed-width numbers *)

Lemma float64_small z : (Z.abs z <= 2 ^ 53)%Z -> float64_of_Z z = z.
Proof.
  intros H. unfold float64_of_Z.
  destruct (Z.leb_spec (Z.abs z) (2 ^ 53)) as [_|C]; [reflexivity | lia].
Qed.

Lemma wrap_int64_small z : (- 2 ^ 63 <= z < 2 ^ 63)%Z -> wrap_int64 z = z.
Proof.
  intros H. unfold wrap_int64.
  rewrite Z.mod_small; lia.
Qed.

Lemma exact_difference dt a b :
  (Z.abs a <= 2 ^ 52)%Z -> (Z.abs b <= 2 ^ 52)%Z ->
  cast_float64 dt (cell_sub dt (Val b) (Val a)) = Val (b - a).
Proof.
  intros Ha Hb.
  assert (P52 : (2 ^ 53 = 2 * 2 ^ 52)%Z) by reflexivity.
  assert (P63 : (2 ^ 63 = 1024 * 2 ^ 53)%Z) by reflexivity.
  destruct dt; cbn [cast_float64 cell_sub to_float64].
  - rewrite wrap_int64_small by lia. rewrite float64_small by lia.
    reflexivity.
  - rewrite float64_small by lia. reflexivity.
Qed.

Lemma is_nan_astype dt c : is_nan (astype dt c) = is_nan c.
Proof. destruct dt, c; reflexivity. Qed.

Lemma existsb_perm {A} (f : A -> bool) l1 l2 :
  Permutation l1 l2 -> existsb f l1 = existsb f l2.
Proof.
  induction 1 as [| x l l' P IH | x y l | l1 l2 l3 P1 IH1 P2 IH2]; simpl.
  - reflexivity.
  - now rewrite IH.
  - destruct (f x), (f y); reflexivity.
  - congruence.
Qed.

Lemma infer_dtype_perm l1 l2 :
  Permutation l1 l2 -> infer_dtype l1 = infer_dtype l2.
Proof.
  intros P. unfold infer_dtype. now rewrite (existsb_perm is_nan l1 l2 P).
Qed.

Lemma infer_dtype_astype dt l :
  infer_dtype (map (astype dt) l) = infer_dtype l.
Proof.
  unfold infer_dtype.
  replace (existsb is_nan (map (astype dt) l)) with (existsb is_nan l);
    [reflexivity|].
  induction l as [|c t IH]; simpl; [reflexivity|].
  now rewrite is_nan_astype, IH.
Qed.

Lemma infer_dtype_Float64 l : infer_dtype l = Float64 <-> In NaN l.
Proof.
  unfold infer_dtype. destruct (existsb is_nan l) eqn:E.
  - split; [intros _|reflexivity].
    apply existsb_exists in E. destruct E as [c [Hc Hn]].
    destruct c; [discriminate | exact Hc].
  - split; [discriminate|]. intros H.
    assert (X : existsb is_nan l = true)
      by (apply existsb_exists; exists NaN; auto).
    congruence.
Qed.

Lemma infer_dtype_Int64 l : infer_dtype l = Int64 <-> ~ In NaN l.
Proof.
  rewrite <- infer_dtype_Float64. destruct (infer_dtype l); split;
    congruence.
Qed.

Lemma stored_perm es1 es2 field e :
  Permutation es1 es2 -> stored es1 field e = stored es2 field e.
Proof.
  intros P. unfold stored. f_equal.
  apply infer_dtype_perm. now apply Permutation_map.
Qed.

Lemma extracted_row_perm es1 es2 ed :
  Permutation es1 es2 -> extracted_row es1 ed = extracted_row es2 ed.
Proof.
  intros P. unfold extracted_row. f_equal.
  apply map_ext. intros k. f_equal. now apply stored_perm.
Qed.

Lemma stored_nan es field e :
  extract e field = NaN -> stored es field e = NaN.
Proof.
  intros E. unfold stored. rewrite E.
  destruct (infer_dtype _); reflexivity.
Qed.

Lemma stored_small es field e v :
  extract e field = Val v -> (Z.abs v <= 2 ^ 53)%Z ->
  stored es field e = Val v.
Proof.
  intros E H. unfold stored. rewrite E.
  destruct (infer_dtype _); cbn [astype to_float64]; [reflexivity|].
  now rewrite float64_small.
Qed.

(** ** np.diff and the assigned array *)

Lemma length_np_diff dt l : length (np_diff dt l) = length l - 1.
Proof.
  induction l as [|x t IH]; simpl; [reflexivity|].
  destruct t as [|y t']; [reflexivity|].
  simpl in *. rewrite IH. lia.
Qed.

Lemma length_new_cases_of dt cum : length (new_cases_of dt cum) = length cum.
Proof.
  unfold new_cases_of, set_slice_from, np_zeros.
  rewrite length_app, length_firstn, repeat_length, length_map,
    length_np_diff.
  lia.
Qed.

Lemma nth_error_np_diff dt : forall l i x y,
  nth_error l i = Some x -> nth_error l (S i) = Some y ->
  nth_error (np_diff dt l) i = Some (cell_sub dt y x).
Proof.
  induction l as [|a t IH]; intros i x y Hx Hy; [destruct i; discriminate|].
  destruct t as [|b t']; [destruct i; discriminate|].
  destruct i as [|i].
  - simpl in *. congruence.
  - change (np_diff dt (a :: b :: t'))
      with (cell_sub dt b a :: np_diff dt (b :: t')).
    simpl. apply IH; assumption.
Qed.

Lemma new_cases_of_first dt x t :
  nth_error (new_cases_of dt (x :: t)) 0 = Some (Val 0).
Proof. reflexivity. Qed.

Lemma new_cases_of_later dt cum i x y :
  nth_error cum i = Some x -> nth_error cum (S i) = Some y ->
  nth_error (new_cases_of dt cum) (S i)
  = Some (cast_float64 dt (cell_sub dt y x)).
Proof.
  intros Hx Hy. destruct cum as [|a t]; [destruct i; discriminate|].
  unfold new_cases_of, set_slice_from, np_zeros.
  change (firstn 1 (repeat (Val 0) (length (a :: t)))) with [Val 0].
  change (nth_error ([Val 0] ++ map (cast_float64 dt) (np_diff dt (a :: t)))
                    (S i))
    with (nth_error (map (cast_float64 dt) (np_diff dt (a :: t))) i).
  rewrite nth_error_map, (nth_error_np_diff dt _ i x y Hx Hy). reflexivity.
Qed.

(** ** One assignment of the derived column *)

Lemma step_rows df st :
  rows (new_cases_step df st)
  = assign st "new_cases"
      (new_cases_of (series_dtype "cum_positive" df)
                    (column "cum_positive" (rows_of st (rows df))))
      (rows (ensure_column "new_cases" df)).
Proof. reflexivity. Qed.

Lemma step_columns df st :
  columns (new_cases_step df st) = columns (ensure_column "new_cases" df).
Proof. reflexivity. Qed.

Lemma step_agree df st :
  Forall2 (agree_except "new_cases") (rows (new_cases_step df st)) (rows df).
Proof.
  rewrite step_rows. eapply agree_list_trans.
  - apply assign_agree.
  - apply ensure_column_agree.
Qed.

Lemma step_wf df st : wf_frame df -> wf_frame (new_cases_step df st).
Proof.
  intros H. unfold wf_frame. rewrite step_rows, step_columns.
  apply assign_names. exact (ensure_column_wf "new_cases" df H).
Qed.

Lemma step_has df st : In "new_cases" (columns (new_cases_step df st)).
Proof. rewrite step_columns. apply ensure_column_has. Qed.

Lemma step_other df st st' :
  In "new_cases" (columns df) -> st' <> st ->
  rows_of st' (rows (new_cases_step df st)) = rows_of st' (rows df).
Proof.
  intros H N. rewrite step_rows, (ensure_column_id _ _ H).
  now apply assign_other.
Qed.

Lemma step_dtype df st :
  series_dtype "cum_positive" (new_cases_step df st)
  = series_dtype "cum_positive" df.
Proof.
  unfold series_dtype. f_equal.
  apply (agree_list_column "new_cases"); [discriminate|].
  apply step_agree.
Qed.

Lemma step_same df st :
  wf_frame df ->
  map (cell_of "new_cases") (rows_of st (rows (new_cases_step df st)))
  = map Some (new_cases_of (series_dtype "cum_positive" df)
                           (column "cum_positive" (rows_of st (rows df)))).
Proof.
  intros W. rewrite step_rows.
  pose proof (agree_list_rows_of _ st _ _ (ensure_column_agree "new_cases" df))
    as A.
  apply agree_list_length in A.
  assert (L : length (new_cases_of (series_dtype "cum_positive" df)
                        (column "cum_positive" (rows_of st (rows df))))
              = length (rows_of st (rows (ensure_column "new_cases" df)))).
  { rewrite length_new_cases_of. unfold column. rewrite length_map. now rewrite A. }
  rewrite assign_same by exact L.
  apply set_cells_read; [exact L|].
  apply List.Forall_forall. intros r Hr. apply filter_In in Hr. destruct Hr as [Hr _].
  pose proof (ensure_column_wf "new_cases" df W) as W'.
  unfold wf_frame in W'. rewrite List.Forall_forall in W'.
  rewrite (W' r Hr). apply ensure_column_has.
Qed.

(** ** The loop over the states *)

Lemma unique_first_In s l : In s (unique_first l) <-> In s l.
Proof.
  induction l as [|x t IH]; simpl; [tauto|].
  rewrite filter_In, IH.
  destruct (String.eqb_spec s x) as [->|N]; simpl; intuition congruence.
Qed.

Lemma unique_first_NoDup l : NoDup (unique_first l).
Proof.
  induction l as [|x t IH]; simpl; constructor.
  - rewrite filter_In. intros [_ H]. now rewrite String.eqb_refl in H.
  - now apply NoDup_filter.
Qed.

Lemma fold_agree ss : forall df,
  Forall2 (agree_except "new_cases")
          (rows (fold_left new_cases_step ss df)) (rows df).
Proof.
  induction ss as [|s t IH]; intros df; simpl; [apply agree_list_refl|].
  eapply agree_list_trans; [apply IH | apply step_agree].
Qed.

Lemma fold_wf ss : forall df,
  wf_frame df -> wf_frame (fold_left new_cases_step ss df).
Proof.
  induction ss as [|s t IH]; intros df W; simpl; [exact W|].
  apply IH. now apply step_wf.
Qed.

Lemma fold_columns_has ss : forall df,
  In "new_cases" (columns df) ->
  columns (fold_left new_cases_step ss df) = columns df.
Proof.
  induction ss as [|s t IH]; intros df H; simpl; [reflexivity|].
  rewrite IH by apply step_has.
  rewrite step_columns. now rewrite ensure_column_id.
Qed.

Lemma fold_columns s t df :
  columns (fold_left new_cases_step (s :: t) df)
  = columns (ensure_column "new_cases" df).
Proof.
  simpl. rewrite fold_columns_has by apply step_has. apply step_columns.
Qed.

Lemma fold_untouched ss : forall df st,
  In "new_cases" (columns df) -> ~ In st ss ->
  rows_of st (rows (fold_left new_cases_step ss df)) = rows_of st (rows df).
Proof.
  induction ss as [|s t IH]; intros df st H N; simpl; [reflexivity|].
  rewrite IH.
  - apply step_other; [assumption|]. intros ->. apply N. now left.
  - apply step_has.
  - intros Hin. apply N. now right.
Qed.

Lemma fold_new_cases ss : forall df st,
  wf_frame df -> NoDup ss -> In st ss ->
  map (cell_of "new_cases") (rows_of st (rows (fold_left new_cases_step ss df)))
  = map Some (new_cases_of (series_dtype "cum_positive" df)
                           (column "cum_positive" (rows_of st (rows df)))).
Proof.
  induction ss as [|s t IH]; intros df st W ND Hin; [destruct Hin|].
  inversion ND as [|? ? Hnot ND']; subst. simpl.
  destruct (String.eqb_spec st s) as [->|N].
  - rewrite fold_untouched; [|apply step_has|assumption].
    now apply step_same.
  - destruct Hin as [->|Hin]; [congruence|].
    rewrite IH; [|now apply step_wf|assumption|assumption].
    rewrite step_dtype.
    f_equal. f_equal.
    apply (agree_list_column "new_cases"); [discriminate|].
    apply agree_list_rows_of, step_agree.
Qed.

(** ** ExtractDataFrame as a whole *)

Lemma ExtractDataFrame_ok json start :
  Forall parses json ->
  ExtractDataFrame json start
  = Ok (reshaped start json, np_unique (map state json)).
Proof.
  intros H. unfold ExtractDataFrame.
  rewrite (loop_ok start json acc_init [] acc_init_data H).
  cbn [mbind result_bind indices data all_locations acc_init app].
  unfold MultiIndex_from_tuples. rewrite pd_DataFrame_ok. reflexivity.
Qed.

Lemma ExtractDataFrame_inv json start df locs :
  ExtractDataFrame json start = Ok (df, locs) ->
  Forall parses json
  /\ df = reshaped start json
  /\ locs = np_unique (map state json).
Proof.
  intros H.
  assert (P : Forall parses json).
  { unfold ExtractDataFrame in H.
    destruct (loop start json acc_init) as [a|x] eqn:E; [|discriminate].
    eapply loop_Ok_parses; eauto. }
  rewrite (ExtractDataFrame_ok json start P) in H.
  inversion H; subst. auto.
Qed.

Lemma ExtractDataFrame_raise start pre e post :
  Forall parses pre ->
  strptime (date_field e) = None ->
  ExtractDataFrame (pre ++ e :: post) start = Raise (ValueError (date_field e)).
Proof.
  intros Hp He. unfold ExtractDataFrame.
  rewrite (loop_raise start pre e post acc_init Hp He). reflexivity.
Qed.

Lemma first_unparsed json :
  Forall parses json
  \/ exists pre e post,
       json = pre ++ e :: post /\ Forall parses pre
       /\ strptime (date_field e) = None.
Proof.
  induction json as [|e rest IH]; [left; constructor|].
  destruct (strptime (date_field e)) as [d|] eqn:E.
  - destruct IH as [IH | [pre [x [post [-> [Hp Hx]]]]]].
    + left. constructor; [unfold parses; congruence | exact IH].
    + right. exists (e :: pre), x, post. repeat split; auto.
      constructor; [unfold parses; congruence | exact Hp].
  - right. exists [], e, rest. repeat split; auto.
Qed.

Lemma qualifying_In start json e d :
  In (e, d) (qualifying start json)
  <-> In e json /\ strptime (date_field e) = Some d /\ date_geb d start = true.
Proof.
  induction json as [|x rest IH]; simpl; [tauto|].
  destruct (strptime (date_field x)) as [dx|] eqn:Ex.
  - destruct (date_geb dx start) eqn:Eg; simpl; rewrite IH.
    + split.
      * intros [E | H]; [inversion E; subst; auto | tauto].
      * intros [[-> | H] [H1 H2]]; [left; congruence | right; auto].
    + split; [tauto|].
      intros [[-> | H] [H1 H2]]; [congruence | auto].
  - rewrite IH. split; [tauto|].
    intros [[-> | H] [H1 H2]]; [congruence | auto].
Qed.

Lemma qualifying_none start json :
  (forall e d, In e json -> strptime (date_field e) = Some d ->
               date_geb d start = false) ->
  qualifying start json = [].
Proof.
  intros H. destruct (qualifying start json) as [|[e d] t] eqn:E; [reflexivity|].
  assert (I : In (e, d) (qualifying start json)) by (rewrite E; now left).
  apply qualifying_In in I. destruct I as [I1 [I2 I3]].
  rewrite (H e d I1 I2) in I3. discriminate.
Qed.

Lemma base_rows_perm start json :
  Permutation (rows (base_frame start json))
              (map (extracted_row (map fst (qualifying start json)))
                   (qualifying start json)).
Proof. apply sort_rows_perm. Qed.

Lemma base_rows_sorted start json :
  StronglySorted row_le (rows (base_frame start json)).
Proof. apply sort_rows_sorted. Qed.

Lemma base_frame_wf start json : wf_frame (base_frame start json).
Proof.
  unfold wf_frame. apply List.Forall_forall. intros r Hr.
  apply (Permutation_in _ (base_rows_perm start json)) in Hr.
  apply in_map_iff in Hr. destruct Hr as [ed [<- _]].
  unfold extracted_row. cbn [cells]. rewrite map_map. reflexivity.
Qed.

Lemma reshaped_agree start json :
  Forall2 (agree_except "new_cases")
          (rows (reshaped start json)) (rows (base_frame start json)).
Proof. apply fold_agree. Qed.

Lemma reshaped_labels start json :
  map label (rows (reshaped start json))
  = map label (rows (base_frame start json)).
Proof. eapply agree_list_labels, reshaped_agree. Qed.

Lemma reshaped_labels_perm start json :
  Permutation (map label (rows (reshaped start json)))
              (map label_of (qualifying start json)).
Proof.
  rewrite reshaped_labels.
  rewrite (Permutation_map label (base_rows_perm start json)).
  rewrite map_map. reflexivity.
Qed.

Lemma reshaped_wf start json : wf_frame (reshaped start json).
Proof. apply fold_wf, base_frame_wf. Qed.

(** * The claims *)

(** C7. A record whose date does not parse makes [ExtractDataFrame] raise:
    the call returns normally exactly when every date parses; the error
    raised is the [ValueError] of the first record whose date does not
    parse, whatever follows it, so no such record is skipped. *)
Theorem malformed_date_fails_fast json start :
  (Forall parses json
   <-> exists df locs, ExtractDataFrame json start = Ok (df, locs))
  /\ (forall pre e post,
        json = pre ++ e :: post -> Forall parses pre ->
        strptime (date_field e) = None ->
        ExtractDataFrame json start = Raise (ValueError (date_field e)))
  /\ (forall e,
        In e json -> strptime (date_field e) = None ->
        exists e', In e' json /\ strptime (date_field e') = None
                   /\ ExtractDataFrame json start
                      = Raise (ValueError (date_field e'))).
Proof.
  split; [split|split].
  - intros H. eexists _, _. now apply ExtractDataFrame_ok.
  - intros [df [locs H]]. now apply ExtractDataFrame_inv in H.
  - intros pre e post -> Hp He. now apply ExtractDataFrame_raise.
  - intros e Hin He.
    destruct (first_unparsed json) as [P | [pre [x [post [-> [Hp Hx]]]]]].
    + rewrite List.Forall_forall in P. specialize (P e Hin).
      unfold parses in P. congruence.
    + exists x. split; [apply in_elt|]. split; [exact Hx|].
      now apply ExtractDataFrame_raise.
Qed.

Lemma malformed_date_fails_fast_witness :
  ExtractDataFrame [AZ_feb1; AZ_bad; AZ_feb2] start_feb1
  = Raise (ValueError "20200230")
  /\ exists df locs, ExtractDataFrame [AZ_feb1; AZ_feb2] start_feb1 = Ok (df, locs).
Proof.
  split.
  - apply (proj1 (proj2 (malformed_date_fails_fast
                           [AZ_feb1; AZ_bad; AZ_feb2] start_feb1))
             [AZ_feb1] AZ_bad [AZ_feb2]).
    + reflexivity.
    + constructor; [|constructor]. unfold parses. vm_compute. discriminate.
    + vm_compute. reflexivity.
  - apply (proj1 (proj1 (malformed_date_fails_fast
                           [AZ_feb1; AZ_feb2] start_feb1))).
    repeat constructor; unfold parses; vm_compute; discriminate.
Defined.

(** C10, the counterexample: on the empty collection of records
    [ExtractDataFrame] raises nothing; it returns the frame with no row. *)
Lemma empty_input_returns :
  ExtractDataFrame [] start_feb1
  = Ok ({| columns := map fst keys; rows := [] |}, [])
  /\ forall e, ExtractDataFrame [] start_feb1 <> Raise e.
Proof. split; [reflexivity | intros e; vm_compute; discriminate]. Qed.

(** C10, amended. When every date parses and no record has a date on or
    after [start_date], [ExtractDataFrame] returns normally: the frame has
    the ten extracted columns and no row (the loop over the states never
    runs, so [new_cases] is not added), and the states of all records are
    still returned. *)
Theorem no_qualifying_record_empty_table json start :
  Forall parses json ->
  (forall e d, In e json -> strptime (date_field e) = Some d ->
               date_geb d start = false) ->
  ExtractDataFrame json start
  = Ok ({| columns := map fst keys; rows := [] |}, np_unique (map state json)).
Proof.
  intros P H. rewrite (ExtractDataFrame_ok json start P).
  unfold reshaped, base_frame. rewrite (qualifying_none start json H).
  reflexivity.
Qed.

Lemma no_qualifying_record_empty_table_witness :
  ExtractDataFrame [NY_jan31] start_feb1
  = Ok ({| columns := map fst keys; rows := [] |}, ["NY"]).
Proof.
  apply (no_qualifying_record_empty_table [NY_jan31] start_feb1).
  - repeat constructor. unfold parses. vm_compute. discriminate.
  - intros e d [<- | []] H. vm_compute in H. inversion H; subst. reflexivity.
Defined.

Lemma rows_of_nil st rs :
  (forall r, In r rs -> fst (label r) <> st) -> rows_of st rs = [].
Proof.
  induction rs as [|r t IH]; intros H; simpl; [reflexivity|].
  destruct (String.eqb_spec (fst (label r)) st) as [E|E].
  - exfalso. apply (H r); [now left | exact E].
  - apply IH. intros x Hx. apply H. now right.
Qed.

Lemma reshaped_row_origin start json r :
  In r (rows (reshaped start json)) ->
  exists e d, In e json /\ strptime (date_field e) = Some d
              /\ date_geb d start = true /\ label r = (state e, d).
Proof.
  intros Hr.
  assert (L : In (label r) (map label_of (qualifying start json))).
  { apply (Permutation_in _ (reshaped_labels_perm start json)).
    now apply in_map. }
  apply in_map_iff in L. destruct L as [[e d] [El Hq]].
  apply qualifying_In in Hq. destruct Hq as [H1 [H2 H3]].
  exists e, d. unfold label_of in El. simpl in El. auto.
Qed.

(** C3. The list of states returned with the frame is [np.unique] of the
    states of all records: strictly increasing, hence without duplicates,
    with exactly the states that occur in the input, and the same for
    every [start_date]; a state all of whose records are before
    [start_date] is in the list and has no row in the frame. *)
Theorem region_set_all_records json start df locs :
  ExtractDataFrame json start = Ok (df, locs) ->
  locs = np_unique (map state json)
  /\ StronglySorted str_lt locs
  /\ NoDup locs
  /\ (forall s, In s locs <-> exists e, In e json /\ state e = s)
  /\ (forall start' df' locs',
        ExtractDataFrame json start' = Ok (df', locs') -> locs' = locs)
  /\ (forall s,
        In s (map state json) ->
        (forall e d, In e json -> state e = s ->
                     strptime (date_field e) = Some d ->
                     date_geb d start = false) ->
        In s locs /\ loc s df = []).
Proof.
  intros H. apply ExtractDataFrame_inv in H. destruct H as [P [-> ->]].
  split; [reflexivity|].
  split; [apply np_unique_sorted|].
  split; [apply strictly_sorted_NoDup, np_unique_sorted|].
  split; [|split].
  - intros s. rewrite np_unique_In, in_map_iff.
    split; intros [e [H1 H2]]; exists e; auto.
  - intros start' df' locs' H'. apply ExtractDataFrame_inv in H'. tauto.
  - intros s Hs Hbefore. split; [now apply np_unique_In|].
    apply rows_of_nil. intros r Hr E.
    destruct (reshaped_row_origin start json r Hr) as [e [d [H1 [H2 [H3 H4]]]]].
    rewrite H4 in E. simpl in E.
    rewrite (Hbefore e d H1 E H2) in H3. discriminate.
Qed.

Lemma region_set_all_records_witness :
  exists df,
    ExtractDataFrame [NY_jan31; AZ_feb2; AZ_feb1] start_feb1
    = Ok (df, ["AZ"; "NY"])
    /\ loc "NY" df = [].
Proof.
  eexists. split; [reflexivity|].
  apply (region_set_all_records [NY_jan31; AZ_feb2; AZ_feb1] start_feb1
           _ ["AZ"; "NY"] eq_refl).
  - vm_compute. tauto.
  - intros e d [<- | [<- | [<- | []]]] Hs Hd; vm_compute in Hs;
      try discriminate.
    vm_compute in Hd. inversion Hd; subst. reflexivity.
Defined.

(** C2. The index tuples of the returned frame are exactly the
    (state, date) pairs of the records whose date is on or after
    [start_date], each as often as it occurs there. For two records of
    "AZ" dated 2020-02-01 (positive 10) and 2020-02-02 (positive 15), in
    either order, and [start_date] 2020-02-01, the frame has two rows,
    with [new_cases] 0 and 5. *)
Theorem series_table_keys json start df locs :
  ExtractDataFrame json start = Ok (df, locs) ->
  (forall k,
     In k (map label (rows df))
     <-> exists e d, In e json /\ strptime (date_field e) = Some d
                     /\ date_geb d start = true /\ k = (state e, d))
  /\ Permutation (map label (rows df)) (map label_of (qualifying start json))
  /\ (forall f1 f2,
        let e1 := {| state := "AZ"; date_field := "20200201"; fields := f1 |} in
        let e2 := {| state := "AZ"; date_field := "20200202"; fields := f2 |} in
        json = [e1; e2] \/ json = [e2; e1] ->
        start = Date 2020 2 1 ->
        f1 !! "positive" = Some (JNum 10) ->
        f2 !! "positive" = Some (JNum 15) ->
        exists r1 r2,
          rows df = [r1; r2]
          /\ label r1 = ("AZ", Date 2020 2 1)
          /\ cell_of "cum_positive" r1 = Some (Val 10)
          /\ cell_of "new_cases" r1 = Some (Val 0)
          /\ label r2 = ("AZ", Date 2020 2 2)
          /\ cell_of "cum_positive" r2 = Some (Val 15)
          /\ cell_of "new_cases" r2 = Some (Val 5)).
Proof.
  intros H. apply ExtractDataFrame_inv in H. destruct H as [P [-> ->]].
  split; [|split].
  - intros k. split.
    + intros Hk. apply in_map_iff in Hk. destruct Hk as [r [<- Hr]].
      destruct (reshaped_row_origin start json r Hr) as [e [d Hed]].
      exists e, d. tauto.
    + intros [e [d [H1 [H2 [H3 ->]]]]].
      apply (Permutation_in _ (Permutation_sym (reshaped_labels_perm start json))).
      apply in_map_iff. exists (e, d). split; [reflexivity|].
      apply qualifying_In. auto.
  - apply reshaped_labels_perm.
  - intros f1 f2 e1 e2 Hjson -> H1 H2.
    assert (X1 : extract e1 "positive" = Val 10)
      by (unfold extract, e1; cbn [fields]; now rewrite H1).
    assert (X2 : extract e2 "positive" = Val 15)
      by (unfold extract, e2; cbn [fields]; now rewrite H2).
    assert (S1 : forall es, es = [e1; e2] \/ es = [e2; e1] ->
                   stored es "positive" e1 = Val 10
                   /\ stored es "positive" e2 = Val 15).
    { intros es [-> | ->]; unfold stored; simpl map; rewrite X1, X2;
        split; reflexivity. }
    destruct Hjson as [-> | ->];
      cbv -[stored cell_sub cast_float64 infer_dtype]; fold e1 e2;
      [ destruct (S1 [e1; e2] (or_introl eq_refl)) as [-> ->]
      | destruct (S1 [e2; e1] (or_intror eq_refl)) as [-> ->] ];
      eexists _, _; (split; [reflexivity|]); repeat split; reflexivity.
Qed.

Lemma series_table_keys_witness :
  exists r1 r2 locs,
    ExtractDataFrame [AZ_feb1; AZ_feb2] start_feb1
    = Ok ({| columns := map fst keys ++ ["new_cases"]; rows := [r1; r2] |}, locs)
    /\ cell_of "new_cases" r1 = Some (Val 0)
    /\ cell_of "new_cases" r2 = Some (Val 5).
Proof.
  destruct (proj2 (proj2
              (series_table_keys [AZ_feb1; AZ_feb2] start_feb1 _ _ eq_refl))
              (fields AZ_feb1) (fields AZ_feb2)
              (or_introl eq_refl) eq_refl eq_refl eq_refl)
    as [r1 [r2 [Hrows [_ [_ [H1 [_ [_ H2]]]]]]]].
  exists r1, r2, ["AZ"]. split; [|split; assumption].
  vm_compute in Hrows. inversion Hrows; subst. reflexivity.
Defined.

Lemma agree_list_in_r c l' l y :
  Forall2 (agree_except c) l' l -> In y l ->
  exists x, In x l' /\ agree_except c x y.
Proof.
  induction 1 as [|a b t' t A _ IH]; intros Hy; [destruct Hy|].
  destruct Hy as [<- | Hy].
  - exists a. split; [now left | exact A].
  - destruct (IH Hy) as [x [Hx Ax]]. exists x. split; [now right | exact Ax].
Qed.

Lemma agree_list_in_l c l' l x :
  Forall2 (agree_except c) l' l -> In x l' ->
  exists y, In y l /\ agree_except c x y.
Proof.
  induction 1 as [|a b t' t A _ IH]; intros Hx; [destruct Hx|].
  destruct Hx as [<- | Hx].
  - exists b. split; [now left | exact A].
  - destruct (IH Hx) as [y [Hy Ay]]. exists y. split; [now right | exact Ay].
Qed.

Lemma keys_not_new_cases col field : In (col, field) keys -> col <> "new_cases".
Proof.
  intros H. simpl in H.
  repeat (destruct H as [H | H]; [inversion H; subst; discriminate|]).
  destruct H.
Qed.

Lemma extracted_cell es ed col field :
  In (col, field) keys ->
  cell_of col (extracted_row es ed) = Some (stored es field (fst ed)).
Proof.
  intros H. simpl in H.
  repeat (destruct H as [H | H]; [inversion H; subst; reflexivity|]).
  destruct H.
Qed.

Lemma reshaped_row_cells start json r :
  In r (rows (reshaped start json)) ->
  exists e d,
    In (e, d) (qualifying start json)
    /\ label r = (state e, d)
    /\ forall col field,
         In (col, field) keys ->
         cell_of col r
         = Some (stored (map fst (qualifying start json)) field e).
Proof.
  intros Hr.
  destruct (agree_list_in_l _ _ _ r (reshaped_agree start json) Hr)
    as [r0 [Hr0 [L C]]].
  apply (Permutation_in _ (base_rows_perm start json)) in Hr0.
  apply in_map_iff in Hr0. destruct Hr0 as [[e d] [<- Hq]].
  exists e, d. split; [exact Hq|]. split; [exact L|].
  intros col field Hk.
  rewrite (C col (keys_not_new_cases col field Hk)).
  now apply (extracted_cell _ (e, d)).
Qed.

Lemma record_row_cells start json e d :
  In (e, d) (qualifying start json) ->
  exists r,
    In r (rows (reshaped start json))
    /\ label r = (state e, d)
    /\ forall col field,
         In (col, field) keys ->
         cell_of col r
         = Some (stored (map fst (qualifying start json)) field e).
Proof.
  intros Hq.
  assert (Hb : In (extracted_row (map fst (qualifying start json)) (e, d))
                  (rows (base_frame start json))).
  { apply (Permutation_in _ (Permutation_sym (base_rows_perm start json))).
    now apply in_map. }
  destruct (agree_list_in_r _ _ _ _ (reshaped_agree start json) Hb)
    as [r [Hr [L C]]].
  exists r. split; [exact Hr|]. split; [exact L|].
  intros col field Hk.
  rewrite (C col (keys_not_new_cases col field Hk)).
  now apply (extracted_cell _ (e, d)).
Qed.

Lemma reshaped_columns start json :
  rows (reshaped start json) <> [] ->
  columns (reshaped start json) = map fst keys ++ ["new_cases"].
Proof.
  intros N. unfold reshaped in *.
  destruct (index_unique_level0 (base_frame start json)) as [|s t] eqn:E.
  - exfalso. apply N. cbn [fold_left]. unfold index_unique_level0 in E.
    destruct (rows (base_frame start json)); [reflexivity | discriminate].
  - rewrite fold_columns. reflexivity.
Qed.

Lemma reshaped_column start json c :
  c <> "new_cases" ->
  column c (rows (reshaped start json))
  = column c (rows (base_frame start json)).
Proof.
  intros N. apply (agree_list_column "new_cases"); [exact N|].
  apply reshaped_agree.
Qed.

Lemma reshaped_dtype start json c :
  c <> "new_cases" ->
  series_dtype c (reshaped start json)
  = series_dtype c (base_frame start json).
Proof.
  intros N. unfold series_dtype. now rewrite reshaped_column.
Qed.

Lemma base_column start json col field :
  In (col, field) keys ->
  Permutation (column col (rows (base_frame start json)))
              (map (fun ed => stored (map fst (qualifying start json))
                                     field (fst ed))
                   (qualifying start json)).
Proof.
  intros Hk. unfold column.
  rewrite (Permutation_map _ (base_rows_perm start json)).
  rewrite map_map.
  erewrite map_ext; [reflexivity|].
  intros ed. cbv beta.
  pose proof (extracted_cell (map fst (qualifying start json)) ed col field Hk)
    as E.
  unfold cell_of in E. now rewrite E.
Qed.

Lemma reshaped_column_dtype start json col field :
  In (col, field) keys ->
  infer_dtype (column col (rows (reshaped start json)))
  = infer_dtype (map (fun x => extract x field)
                     (map fst (qualifying start json))).
Proof.
  intros Hk.
  rewrite reshaped_column by exact (keys_not_new_cases col field Hk).
  rewrite (infer_dtype_perm _ _ (base_column start json col field Hk)).
  set (l := map (fun x => extract x field) (map fst (qualifying start json))).
  transitivity (infer_dtype (map (astype (infer_dtype l)) l)).
  - f_equal.
    assert (X : forall dt,
              map (astype dt) l
              = map (fun ed => astype dt (extract (fst ed) field))
                    (qualifying start json))
      by (intros dt; unfold l; rewrite !map_map; reflexivity).
    symmetry. exact (X (infer_dtype l)).
  - apply infer_dtype_astype.
Qed.

(** C5, the counterexample: the mapping does not have nine entries, and a
    row of a returned frame does not have ten cells. *)
Lemma metric_key_not_nine :
  length keys <> 9
  /\ exists df locs r,
       ExtractDataFrame [AZ_feb1] start_feb1 = Ok (df, locs)
       /\ In r (rows df) /\ length (cells r) <> 10.
Proof.
  split; [discriminate|].
  eexists _, _, _. split; [reflexivity|].
  split; [now left | discriminate].
Qed.

(** C5, amended. The mapping [keys] has exactly ten entries, with ten
    distinct column names, so every row of a returned frame holds the ten
    extracted metrics followed by the derived [new_cases]: eleven columns
    in total. *)
Theorem metric_key_ten_columns :
  length keys = 10
  /\ NoDup (map fst keys)
  /\ forall json start df locs,
       ExtractDataFrame json start = Ok (df, locs) ->
       forall r, In r (rows df) ->
         map fst (cells r) = map fst keys ++ ["new_cases"]
         /\ length (cells r) = 11.
Proof.
  split; [reflexivity|]. split.
  - simpl. repeat (constructor; [simpl; intuition discriminate|]). constructor.
  - intros json start df locs H r Hr.
    apply ExtractDataFrame_inv in H. destruct H as [P [-> ->]].
    assert (E : map fst (cells r) = map fst keys ++ ["new_cases"]).
    { pose proof (reshaped_wf start json) as W. unfold wf_frame in W.
      rewrite List.Forall_forall in W. rewrite (W r Hr).
      apply reshaped_columns. intros E. rewrite E in Hr. destruct Hr. }
    split; [exact E|].
    rewrite <- (length_map fst), E. reflexivity.
Qed.

Lemma metric_key_ten_columns_witness :
  exists df locs,
    ExtractDataFrame [AZ_feb1; AZ_feb2] start_feb1 = Ok (df, locs)
    /\ Forall (fun r => length (cells r) = 11) (rows df).
Proof.
  eexists _, _. split; [reflexivity|].
  apply List.Forall_forall. intros r Hr.
  apply (proj2 (proj2 metric_key_ten_columns)
           [AZ_feb1; AZ_feb2] start_feb1 _ _ eq_refl r Hr).
Defined.

(** C6, the counterexample: a record dated on or after [start_date]
    holds the number 2^53 + 1 under [positive]; another record of the
    feed lacks the key, so the column holds a [nan] and is stored as
    float64, and the cell of the first record holds 2^53: the value is
    not copied unchanged. *)
Lemma value_beside_nan_not_copied :
  exists df locs r,
    ExtractDataFrame [AZ_big; AZ_nan] start_feb1 = Ok (df, locs)
    /\ fields AZ_big !! "positive" = Some (JNum 9007199254740993)
    /\ In r (rows df)
    /\ label r = ("AZ", Date 2020 2 2)
    /\ cell_of "cum_positive" r = Some (Val 9007199254740992)
    /\ cell_of "cum_positive" r <> Some (Val 9007199254740993).
Proof.
  eexists _, _, _. split; [vm_compute; reflexivity|].
  split; [reflexivity|]. split; [now left|].
  split; [reflexivity|]. split; [reflexivity | discriminate].
Qed.

(** C6, amended. For a feed whose numbers are in the int64 range, every
    record whose date is on or after [start_date] has a row with its
    index tuple in which, for every entry of [keys], the cell is [nan]
    when the record lacks the field or holds [null] there; when the
    field holds a number, the cell holds that number unchanged if its
    magnitude is at most 2^53 or if the column holds no [nan], and the
    double nearest to it if the column holds a [nan]. *)
Theorem metric_cell_nan_or_stored_number json start df locs :
  int64_feed json = true ->
  ExtractDataFrame json start = Ok (df, locs) ->
  forall e d,
    In e json -> strptime (date_field e) = Some d ->
    date_geb d start = true ->
    exists r,
      In r (rows df)
      /\ label r = (state e, d)
      /\ forall col field,
           In (col, field) keys ->
           (fields e !! field = None -> cell_of col r = Some NaN)
           /\ (fields e !! field = Some JNull -> cell_of col r = Some NaN)
           /\ (forall v,
                 fields e !! field = Some (JNum v) ->
                 ((Z.abs v <= 2 ^ 53)%Z -> cell_of col r = Some (Val v))
                 /\ (~ In NaN (column col (rows df)) ->
                     cell_of col r = Some (Val v))
                 /\ (In NaN (column col (rows df)) ->
                     cell_of col r = Some (Val (float64_of_Z v)))).
Proof.
  intros _ H e d He Hd Hg.
  apply ExtractDataFrame_inv in H. destruct H as [P [-> ->]].
  assert (Hq : In (e, d) (qualifying start json))
    by (apply qualifying_In; auto).
  destruct (record_row_cells start json e d Hq) as [r [Hr [L C]]].
  exists r. split; [exact Hr|]. split; [exact L|].
  intros col field Hk. rewrite (C col field Hk).
  split; [|split].
  - intros E. rewrite stored_nan; [reflexivity|]. unfold extract. now rewrite E.
  - intros E. rewrite stored_nan; [reflexivity|]. unfold extract. now rewrite E.
  - intros v E.
    assert (X : extract e field = Val v) by (unfold extract; now rewrite E).
    split; [|split].
    + intros B. now rewrite (stored_small _ _ _ v X B).
    + intros N. apply infer_dtype_Int64 in N.
      rewrite (reshaped_column_dtype start json col field Hk) in N.
      unfold stored. now rewrite N, X.
    + intros N. apply infer_dtype_Float64 in N.
      rewrite (reshaped_column_dtype start json col field Hk) in N.
      unfold stored. now rewrite N, X.
Qed.

Lemma metric_cell_nan_or_stored_number_witness :
  exists r,
    In r (rows (reshaped start_feb1 [NY_jan31; WA_feb3]))
    /\ label r = ("WA", Date 2020 2 3)
    /\ cell_of "curr_hosp" r = Some NaN
    /\ cell_of "cum_death" r = Some NaN
    /\ cell_of "cum_total" r = Some (Val 40).
Proof.
  destruct (metric_cell_nan_or_stored_number
              [NY_jan31; WA_feb3] start_feb1 _ _ eq_refl eq_refl
              WA_feb3 (Date 2020 2 3)
              (or_intror (or_introl eq_refl)) eq_refl eq_refl)
    as [r [Hr [L C]]].
  exists r. split; [exact Hr|]. split; [exact L|].
  split; [|split].
  - apply (proj1 (C "curr_hosp" "hospitalizedCurrently"
                    ltac:(simpl; tauto))).
    reflexivity.
  - apply (proj1 (proj2 (C "cum_death" "death" ltac:(simpl; tauto)))).
    reflexivity.
  - apply (proj1 (proj2 (proj2 (C "cum_total" "total" ltac:(simpl; tauto)))
                    40%Z eq_refl)).
    vm_compute. discriminate.
Defined.

(** ** Order of the rows of a state *)

Lemma sorted_weaken {A} (R Q : A -> A -> Prop) l :
  (forall a b, R a b -> Q a b) -> StronglySorted R l -> StronglySorted Q l.
Proof.
  intros W. induction 1 as [|x t St IH Ft]; constructor; [exact IH|].
  rewrite List.Forall_forall in Ft |- *. auto.
Qed.

Lemma sorted_filter {A} (R : A -> A -> Prop) (f : A -> bool) l :
  StronglySorted R l -> StronglySorted R (List.filter f l).
Proof.
  induction 1 as [|x t St IH Ft]; simpl; [constructor|].
  destruct (f x); [|exact IH]. constructor; [exact IH|].
  rewrite List.Forall_forall in Ft |- *. intros y Hy.
  apply filter_In in Hy. apply Ft. tauto.
Qed.

Lemma agree_list_not_after c l' l :
  Forall2 (agree_except c) l' l ->
  StronglySorted not_after l -> StronglySorted not_after l'.
Proof.
  induction 1 as [|r' r t' t [L C] F IH]; intros S; [constructor|].
  inversion S as [|? ? St Ft]; subst. constructor; [auto|].
  rewrite List.Forall_forall in Ft |- *. intros x' Hx'.
  destruct (agree_list_in_l _ _ _ x' F Hx') as [x [Hx [Lx _]]].
  unfold not_after in *. rewrite L, Lx. auto.
Qed.

Lemma reshaped_rows_not_after start json st :
  StronglySorted not_after (rows_of st (rows (reshaped start json))).
Proof.
  eapply agree_list_not_after.
  - apply agree_list_rows_of, reshaped_agree.
  - apply sorted_filter.
    eapply sorted_weaken; [|apply base_rows_sorted].
    intros a b. apply row_leb_date.
Qed.

Lemma index_unique_level0_reshaped start json :
  index_unique_level0 (reshaped start json)
  = index_unique_level0 (base_frame start json).
Proof.
  unfold index_unique_level0.
  rewrite <- (map_map label fst (rows (reshaped start json))).
  rewrite <- (map_map label fst (rows (base_frame start json))).
  now rewrite reshaped_labels.
Qed.

Lemma reshaped_new_cases start json st :
  In st (index_unique_level0 (reshaped start json)) ->
  map (cell_of "new_cases") (rows_of st (rows (reshaped start json)))
  = map Some (new_cases_of
                (series_dtype "cum_positive" (reshaped start json))
                (column "cum_positive" (rows_of st (rows (reshaped start json))))).
Proof.
  intros H. rewrite index_unique_level0_reshaped in H.
  unfold reshaped at 1.
  rewrite fold_new_cases;
    [|apply base_frame_wf|apply unique_first_NoDup|exact H].
  rewrite reshaped_dtype by discriminate.
  f_equal. f_equal. symmetry.
  apply (agree_list_column "new_cases"); [discriminate|].
  apply agree_list_rows_of, reshaped_agree.
Qed.

Lemma column_nth c rs i r x :
  nth_error rs i = Some r -> cell_of c r = Some x ->
  nth_error (column c rs) i = Some x.
Proof.
  intros Hr Hc. unfold column.
  rewrite (map_nth_error _ _ _ Hr). unfold cell_of in Hc. now rewrite Hc.
Qed.

Lemma map_eq_nth {A B C} (f : A -> C) (g : B -> C) l l' i a b :
  map f l = map g l' ->
  nth_error l i = Some a -> nth_error l' i = Some b -> f a = g b.
Proof.
  intros E Ha Hb.
  pose proof (map_nth_error f _ _ Ha) as H1.
  pose proof (map_nth_error g _ _ Hb) as H2.
  rewrite E in H1. congruence.
Qed.

Lemma date_leb_neq_ltb a b : date_leb a b = true -> a <> b -> date_ltb a b = true.
Proof.
  unfold date_leb, date_ltb. destruct (date_compare a b) eqn:E; try congruence.
  apply date_compare_Eq in E. congruence.
Qed.

Lemma NoDup_map_filter {A B} (f : A -> B) (p : A -> bool) l :
  NoDup (map f l) -> NoDup (map f (List.filter p l)).
Proof.
  induction l as [|x t IH]; simpl; intros H; [constructor|].
  inversion H as [|? ? Hx Ht]; subst.
  destruct (p x); simpl; [|auto].
  constructor; [|auto].
  intros Hin. apply Hx. apply in_map_iff in Hin.
  destruct Hin as [y [Ey Hy]]. apply filter_In in Hy.
  apply in_map_iff. exists y. tauto.
Qed.

Lemma strict_from_weak st l :
  Forall (fun r => fst (label r) = st) l ->
  NoDup (map label l) ->
  StronglySorted not_after l -> StronglySorted before l.
Proof.
  intros F N S. induction S as [|x t St IH Ft]; [constructor|].
  inversion F as [|? ? Fx Ftl]; subst.
  simpl in N. inversion N as [|? ? Nx Nt]; subst.
  constructor; [auto|].
  rewrite List.Forall_forall in Ft, Ftl |- *. intros y Hy.
  apply date_leb_neq_ltb; [exact (Ft y Hy)|].
  intros E. apply Nx. apply in_map_iff. exists y. split; [|exact Hy].
  apply injective_projections; [|now symmetry].
  rewrite (Ftl y Hy). now symmetry.
Qed.

(** C1, the counterexample: a state reports 0 and then 2^53 + 1; the
    [new_cases] of its second row is 2^53, not the difference of the two
    [cum_positive] values. *)
Lemma large_difference_is_rounded :
  exists df locs p r,
    ExtractDataFrame [AZ_zero; AZ_big] start_feb1 = Ok (df, locs)
    /\ loc "AZ" df = [p; r]
    /\ cell_of "cum_positive" p = Some (Val 0)
    /\ cell_of "cum_positive" r = Some (Val 9007199254740993)
    /\ cell_of "new_cases" r = Some (Val 9007199254740992)
    /\ cell_of "new_cases" r <> Some (Val (9007199254740993 - 0)).
Proof.
  eexists _, _, _, _. split; [vm_compute; reflexivity|].
  split; [reflexivity|]. split; [reflexivity|]. split; [reflexivity|].
  split; [reflexivity | discriminate].
Qed.

(** C1, amended. For a feed whose numbers are in the int64 range and
    every state of the returned frame, the rows of the state are in the
    order of their dates; the first of them has [new_cases] 0; and every
    later row has [new_cases] [nan] as soon as its [cum_positive] or the
    [cum_positive] of the row just before it among the rows of the state
    is [nan], and otherwise the double nearest to the difference of the
    two, which is computed in int64, wrapping around, when the
    [cum_positive] column of the frame holds no [nan]. The value is the
    exact difference when both magnitudes are at most 2^52. *)
Theorem new_cases_is_rounded_daily_difference json start df locs :
  int64_feed json = true ->
  ExtractDataFrame json start = Ok (df, locs) ->
  forall st,
    In st (index_unique_level0 df) ->
    StronglySorted not_after (loc st df)
    /\ (exists r0 rest,
          loc st df = r0 :: rest /\ cell_of "new_cases" r0 = Some (Val 0))
    /\ (forall i p r,
          nth_error (loc st df) i = Some p ->
          nth_error (loc st df) (S i) = Some r ->
          exists x y,
            cell_of "cum_positive" p = Some x
            /\ cell_of "cum_positive" r = Some y
            /\ (forall a b,
                  x = Val a -> y = Val b ->
                  cell_of "new_cases" r
                  = Some (Val (float64_of_Z
                                 (if existsb is_nan
                                       (column "cum_positive" (rows df))
                                  then (b - a)%Z
                                  else wrap_int64 (b - a))))
                  /\ ((Z.abs a <= 2 ^ 52)%Z -> (Z.abs b <= 2 ^ 52)%Z ->
                      cell_of "new_cases" r = Some (Val (b - a)%Z)))
            /\ (x = NaN \/ y = NaN -> cell_of "new_cases" r = Some NaN)).
Proof.
  intros _ H st Hst.
  apply ExtractDataFrame_inv in H. destruct H as [P [-> ->]].
  change (loc st (reshaped start json))
    with (rows_of st (rows (reshaped start json))).
  pose proof (reshaped_new_cases start json st Hst) as NC.
  set (rs := rows_of st (rows (reshaped start json))) in *.
  assert (CP : forall i r, nth_error rs i = Some r ->
                 exists x, cell_of "cum_positive" r = Some x
                           /\ nth_error (column "cum_positive" rs) i = Some x).
  { intros i r Hr.
    assert (Hin : In r (rows (reshaped start json))).
    { apply nth_error_In in Hr. apply filter_In in Hr. tauto. }
    destruct (reshaped_row_cells start json r Hin) as [e [d [_ [_ C]]]].
    eexists.
    assert (E : cell_of "cum_positive" r
                = Some (stored (map fst (qualifying start json))
                               "positive" e))
      by (apply C; simpl; tauto).
    split; [exact E | eapply column_nth; eauto]. }
  split; [apply reshaped_rows_not_after|]. split.
  - destruct rs as [|r0 rest] eqn:Ers.
    + exfalso. unfold index_unique_level0 in Hst.
      apply unique_first_In, in_map_iff in Hst.
      destruct Hst as [r [Er Hr]].
      assert (Hin : In r rs).
      { apply filter_In. split; [exact Hr|]. now apply String.eqb_eq. }
      rewrite Ers in Hin. destruct Hin.
    + exists r0, rest. split; [reflexivity|].
      simpl in NC. inversion NC. reflexivity.
  - intros i p r Hp Hr.
    destruct (CP i p Hp) as [x [Hx Nx]].
    destruct (CP (S i) r Hr) as [y [Hy Ny]].
    exists x, y. split; [exact Hx|]. split; [exact Hy|].
    pose proof (new_cases_of_later
                  (series_dtype "cum_positive" (reshaped start json))
                  _ i x y Nx Ny) as Hnc.
    pose proof (map_eq_nth _ _ _ _ _ _ _ NC Hr Hnc) as E.
    split.
    + intros a b -> ->. split.
      * rewrite E. unfold series_dtype, infer_dtype.
        destruct (existsb is_nan
                    (column "cum_positive" (rows (reshaped start json))));
          reflexivity.
      * intros Ha Hb. rewrite E. now rewrite exact_difference.
    + intros [-> | ->]; rewrite E; [destruct y | destruct x];
        destruct (series_dtype "cum_positive" (reshaped start json));
        reflexivity.
Qed.

Lemma new_cases_is_rounded_daily_difference_witness :
  exists r0 r1 r2,
    loc "AZ" (reshaped start_feb1 [AZ_nan; NY_jan31; AZ_feb2; AZ_feb1])
    = [r0; r1; r2]
    /\ cell_of "new_cases" r0 = Some (Val 0)
    /\ cell_of "new_cases" r1 = Some (Val 5)
    /\ cell_of "new_cases" r2 = Some NaN.
Proof.
  pose proof (new_cases_is_rounded_daily_difference
                [AZ_nan; NY_jan31; AZ_feb2; AZ_feb1] start_feb1
                (reshaped start_feb1 [AZ_nan; NY_jan31; AZ_feb2; AZ_feb1])
                ["AZ"; "NY"] eq_refl eq_refl
                "AZ" ltac:(vm_compute; tauto)) as [_ [H0 H]].
  destruct H0 as [r0 [rest [E0 N0]]].
  destruct rest as [|r1 [|r2 [|r3 rest]]]; try (vm_compute in E0; discriminate).
  exists r0, r1, r2. split; [exact E0|]. split; [exact N0|].
  rewrite E0 in H. split.
  - destruct (H 0 r0 r1 eq_refl eq_refl) as [x [y [Hx [Hy [Hv _]]]]].
    apply (proj2 (Hv 10%Z 15%Z
                    ltac:(vm_compute in E0; inversion E0; subst;
                          vm_compute in Hx; congruence)
                    ltac:(vm_compute in E0; inversion E0; subst;
                          vm_compute in Hy; congruence)));
      vm_compute; discriminate.
  - destruct (H 1 r1 r2 eq_refl eq_refl) as [x [y [Hx [Hy [_ Hn]]]]].
    apply Hn. right.
    vm_compute in E0. inversion E0; subst. vm_compute in Hy. congruence.
Defined.

(** C4, the counterexample: two records with the same state and the same
    date give two rows with the same index tuple, and the dates of the
    rows of that state are not strictly increasing. *)
Lemma duplicate_records_duplicate_keys :
  exists df locs,
    ExtractDataFrame [AZ_feb1; AZ_feb1] start_feb1 = Ok (df, locs)
    /\ ~ NoDup (map label (rows df))
    /\ ~ StronglySorted before (loc "AZ" df).
Proof.
  eexists _, _. split; [reflexivity|]. split.
  - intros N. inversion N as [|? ? Hx _]; subst. apply Hx. now left.
  - intros S. inversion S as [|? ? _ F]; subst.
    inversion F as [|? ? Hb _]; subst. vm_compute in Hb. discriminate.
Qed.

(** C4, amended. In the returned frame the rows of each state are in
    the order of their dates, equal dates allowed. When no two records
    with a date on or after [start_date] have the same state and the same
    date, the dates of the rows of each state are strictly increasing
    and no index tuple occurs twice in the frame. *)
Theorem rows_ordered_by_date json start df locs :
  ExtractDataFrame json start = Ok (df, locs) ->
  (forall st, StronglySorted not_after (loc st df))
  /\ (NoDup (map label_of (qualifying start json)) ->
      NoDup (map label (rows df))
      /\ forall st, StronglySorted before (loc st df)).
Proof.
  intros H. apply ExtractDataFrame_inv in H. destruct H as [P [-> ->]].
  split; [intros st; apply reshaped_rows_not_after|].
  intros N.
  assert (N' : NoDup (map label (rows (reshaped start json)))).
  { eapply Permutation_NoDup; [|exact N].
    apply Permutation_sym, reshaped_labels_perm. }
  split; [exact N'|]. intros st.
  apply (strict_from_weak st).
  - apply List.Forall_forall. intros r Hr. apply filter_In in Hr.
    now apply String.eqb_eq.
  - now apply NoDup_map_filter.
  - apply reshaped_rows_not_after.
Qed.

Lemma rows_ordered_by_date_witness :
  exists df locs,
    ExtractDataFrame [AZ_feb2; NY_jan31; AZ_feb1] start_feb1 = Ok (df, locs)
    /\ NoDup (map label (rows df))
    /\ StronglySorted before (loc "AZ" df).
Proof.
  eexists _, _. split; [reflexivity|].
  destruct (proj2 (rows_ordered_by_date
                     [AZ_feb2; NY_jan31; AZ_feb1] start_feb1 _ _ eq_refl))
    as [N S].
  - vm_compute. repeat constructor; simpl; intuition discriminate.
  - split; [exact N | exact (S "AZ")].
Defined.

(** * The cache *)

Lemma writes_app tr1 tr2 : writes (tr1 ++ tr2) = writes tr1 ++ writes tr2.
Proof.
  induction tr1 as [|ev t IH]; simpl; [reflexivity|].
  destruct ev; simpl; now rewrite IH.
Qed.

Section FetcherFacts.

Variable json_loads : string -> option (list entry).
Variable json_dumps : list entry -> string.

Lemma GetData_hit filepath run_date w text :
  files w !! cache_filename filepath (run_day run_date w) = Some text ->
  GetData json_loads json_dumps filepath run_date w
  = (match json_loads text with
     | Some all_data => Ok all_data
     | None => Raise JSONDecodeError
     end,
     log (ReadFile (cache_filename filepath (run_day run_date w))) w).
Proof.
  intros H. unfold GetData. fold (run_day run_date w). rewrite H.
  now destruct (json_loads text).
Qed.

Lemma GetData_miss filepath run_date w :
  files w !! cache_filename filepath (run_day run_date w) = None ->
  GetData json_loads json_dumps filepath run_date w
  = match feed w with
    | None => (Raise ConnectionError, log (HttpGet url) w)
    | Some text =>
        match json_loads text with
        | None => (Raise JSONDecodeError, log (HttpGet url) w)
        | Some all_data =>
            if writable w (cache_filename filepath (run_day run_date w))
            then (Ok all_data,
                  write_file (cache_filename filepath (run_day run_date w))
                             (json_dumps all_data) (log (HttpGet url) w))
            else (Raise OSError, log (HttpGet url) w)
        end
    end.
Proof.
  intros H. unfold GetData. fold (run_day run_date w). rewrite H.
  reflexivity.
Qed.


End FetcherFacts.


(** * Further properties of ExtractDataFrame *)

Lemma qualifying_flat_map start json :
  qualifying start json
  = flat_map (fun e => match strptime (date_field e) with
                       | Some d => if date_geb d start then [(e, d)] else []
                       | None => []
                       end) json.
Proof.
  induction json as [|e rest IH]; simpl; [reflexivity|].
  destruct (strptime (date_field e)) as [d|]; [|exact IH].
  destruct (date_geb d start); simpl; now rewrite IH.
Qed.

Lemma qualifying_perm start j1 j2 :
  Permutation j1 j2 ->
  Permutation (qualifying start j1) (qualifying start j2).
Proof.
  intros H. rewrite !qualifying_flat_map. now apply Permutation_flat_map.
Qed.

Lemma qualifying_filter start json :
  qualifying start (List.filter (qualifies start) json)
  = qualifying start json.
Proof.
  induction json as [|e rest IH]; simpl; [reflexivity|].
  unfold qualifies at 1.
  destruct (strptime (date_field e)) as [d|] eqn:Ed; [|exact IH].
  destruct (date_geb d start) eqn:Eg; [|exact IH].
  simpl. rewrite Ed, Eg. now rewrite IH.
Qed.

Lemma row_leb_antisym a b :
  row_leb a b = true -> row_leb b a = true -> label a = label b.
Proof.
  unfold row_leb.
  destruct (date_compare (snd (label a)) (snd (label b))) eqn:E1;
    [| |discriminate].
  - apply date_compare_Eq in E1. rewrite <- E1, date_compare_refl.
    intros H1 H2. apply injective_projections; [|exact E1].
    now apply String.leb_antisym.
  - apply date_compare_Lt, date_compare_Gt in E1. rewrite E1. discriminate.
Qed.

Lemma NoDup_map_eq {A B} (f : A -> B) l x y :
  NoDup (map f l) -> In x l -> In y l -> f x = f y -> x = y.
Proof.
  induction l as [|a t IH]; simpl; intros N Hx Hy E; [destruct Hx|].
  inversion N as [|? ? Na Nt]; subst.
  destruct Hx as [-> | Hx], Hy as [-> | Hy]; auto.
  - exfalso. apply Na. rewrite E. now apply in_map.
  - exfalso. apply Na. rewrite <- E. now apply in_map.
Qed.

Lemma sorted_perm_unique {A} (R : A -> A -> Prop) : forall l1 l2,
  (forall x y, In x l1 -> In y l1 -> R x y -> R y x -> x = y) ->
  StronglySorted R l1 -> StronglySorted R l2 -> Permutation l1 l2 ->
  l1 = l2.
Proof.
  induction l1 as [|a t1 IH]; intros l2 Anti S1 S2 P.
  - apply Permutation_nil in P. now subst.
  - destruct l2 as [|b t2].
    + apply Permutation_sym, Permutation_nil in P. discriminate.
    + inversion S1 as [|? ? St1 Ft1]; subst.
      inversion S2 as [|? ? St2 Ft2]; subst.
      rewrite List.Forall_forall in Ft1, Ft2.
      assert (Hb : In b (a :: t1))
        by (apply (Permutation_in _ (Permutation_sym P)); now left).
      assert (Ha : In a (b :: t2))
        by (apply (Permutation_in _ P); now left).
      assert (E : a = b).
      { destruct Hb as [E | Hb]; [exact E|].
        destruct Ha as [E | Ha]; [now symmetry|].
        apply Anti; [now left | now right | auto | auto]. }
      subst b. f_equal. apply IH; auto.
      * intros x y Hx Hy. apply Anti; now right.
      * now apply Permutation_cons_inv in P.
Qed.

Lemma sort_rows_perm_eq l1 l2 :
  Permutation l1 l2 -> NoDup (map label l1) -> sort_rows l1 = sort_rows l2.
Proof.
  intros P N.
  apply (sorted_perm_unique row_le).
  - intros x y Hx Hy Lxy Lyx.
    apply (Permutation_in _ (sort_rows_perm l1)) in Hx.
    apply (Permutation_in _ (sort_rows_perm l1)) in Hy.
    apply (NoDup_map_eq label l1); auto.
    now apply row_leb_antisym.
  - apply sort_rows_sorted.
  - apply sort_rows_sorted.
  - rewrite !sort_rows_perm. exact P.
Qed.

Lemma np_unique_perm l1 l2 :
  Permutation l1 l2 -> np_unique l1 = np_unique l2.
Proof.
  intros P.
  apply (sorted_perm_unique str_lt).
  - intros x y _ _ Lxy Lyx. exfalso.
    exact (str_lt_irrefl x (str_compare_lt_trans _ _ _ Lxy Lyx)).
  - apply np_unique_sorted.
  - apply np_unique_sorted.
  - apply NoDup_Permutation.
    + apply strictly_sorted_NoDup, np_unique_sorted.
    + apply strictly_sorted_NoDup, np_unique_sorted.
    + intros s. rewrite !np_unique_In. split; apply Permutation_in;
        [exact P | now apply Permutation_sym].
Qed.

Lemma parses_perm j1 j2 :
  Permutation j1 j2 -> Forall parses j1 -> Forall parses j2.
Proof.
  intros P F. rewrite List.Forall_forall in F |- *. intros e He.
  apply F. now apply (Permutation_in _ (Permutation_sym P)).
Qed.

Lemma reshaped_same_qualifying start j1 j2 :
  qualifying start j1 = qualifying start j2 ->
  reshaped start j1 = reshaped start j2.
Proof. intros E. unfold reshaped, base_frame. now rewrite E. Qed.

(** X1. The order of the input records does not matter: when every date
    parses and no two records on or after [start_date] have the same state
    and date, any reordering of the records gives the same frame and the
    same list of states. *)
Theorem record_order_irrelevant json1 json2 start :
  Permutation json1 json2 ->
  Forall parses json1 ->
  NoDup (map label_of (qualifying start json1)) ->
  ExtractDataFrame json1 start = ExtractDataFrame json2 start.
Proof.
  intros P F N.
  rewrite (ExtractDataFrame_ok json1 start F).
  rewrite (ExtractDataFrame_ok json2 start (parses_perm _ _ P F)).
  f_equal. f_equal.
  - unfold reshaped, base_frame, sort_index_level1. cbn [columns rows].
    pose proof (qualifying_perm start json1 json2 P) as Q.
    rewrite (sort_rows_perm_eq
               (map (extracted_row (map fst (qualifying start json1)))
                    (qualifying start json1))
               (map (extracted_row (map fst (qualifying start json2)))
                    (qualifying start json2))).
    + reflexivity.
    + rewrite (map_ext _ _ (fun ed => extracted_row_perm
                              _ _ ed (Permutation_map fst Q))).
      apply Permutation_map, Q.
    + rewrite map_map. exact N.
  - apply np_unique_perm. now apply Permutation_map.
Qed.

Lemma record_order_irrelevant_witness :
  ExtractDataFrame [AZ_feb2; NY_jan31; WA_feb3; AZ_feb1] start_feb1
  = ExtractDataFrame [AZ_feb1; AZ_feb2; WA_feb3; NY_jan31] start_feb1.
Proof.
  apply record_order_irrelevant.
  - apply (Permutation_trans (l' := [AZ_feb1; AZ_feb2; NY_jan31; WA_feb3])).
    + change [AZ_feb2; NY_jan31; WA_feb3; AZ_feb1]
        with ([AZ_feb2; NY_jan31; WA_feb3] ++ [AZ_feb1]).
      apply Permutation_sym, Permutation_cons_append.
    + do 2 apply perm_skip. apply perm_swap.
  - repeat constructor; unfold parses; vm_compute; discriminate.
  - vm_compute. repeat constructor; simpl; intuition discriminate.
Defined.

Lemma agree_list_row_le c l' l :
  Forall2 (agree_except c) l' l ->
  StronglySorted row_le l -> StronglySorted row_le l'.
Proof.
  induction 1 as [|r' r t' t [L C] F IH]; intros S; [constructor|].
  inversion S as [|? ? St Ft]; subst. constructor; [auto|].
  rewrite List.Forall_forall in Ft |- *. intros x' Hx'.
  destruct (agree_list_in_l _ _ _ x' F Hx') as [x [Hx [Lx _]]].
  specialize (Ft x Hx). unfold row_le, row_leb in *. now rewrite L, Lx.
Qed.

Lemma sorted_nth {A} (R : A -> A -> Prop) : forall l i j a b,
  StronglySorted R l -> i < j ->
  nth_error l i = Some a -> nth_error l j = Some b -> R a b.
Proof.
  induction l as [|x t IH]; intros i j a b S Lt Ha Hb;
    [destruct i; discriminate|].
  inversion S as [|? ? St Ft]; subst.
  destruct j as [|j]; [lia|]. simpl in Hb.
  destruct i as [|i].
  - simpl in Ha. inversion Ha; subst.
    rewrite List.Forall_forall in Ft. apply Ft. eapply nth_error_In; eauto.
  - simpl in Ha. apply (IH i j); auto. lia.
Qed.

(** X2. The returned frame as a whole is ordered by date first and by
    state second: a row never comes before a row with an earlier date,
    and rows of the same date are in the order of their states. *)
Theorem table_sorted_by_date_then_state json start df locs :
  ExtractDataFrame json start = Ok (df, locs) ->
  forall i j a b,
    i < j ->
    nth_error (rows df) i = Some a -> nth_error (rows df) j = Some b ->
    date_leb (snd (label a)) (snd (label b)) = true
    /\ (snd (label a) = snd (label b) ->
        String.leb (fst (label a)) (fst (label b)) = true).
Proof.
  intros H i j a b Lt Ha Hb.
  apply ExtractDataFrame_inv in H. destruct H as [P [-> ->]].
  assert (S : StronglySorted row_le (rows (reshaped start json))).
  { eapply agree_list_row_le; [apply reshaped_agree | apply base_rows_sorted]. }
  pose proof (sorted_nth row_le _ i j a b S Lt Ha Hb) as L.
  split; [now apply row_leb_date|].
  intros E. unfold row_le, row_leb in L.
  rewrite E, date_compare_refl in L. exact L.
Qed.

Lemma table_sorted_by_date_then_state_witness :
  exists df locs a b,
    ExtractDataFrame [AZ_feb2; WA_feb3; AZ_feb1] start_feb1 = Ok (df, locs)
    /\ nth_error (rows df) 0 = Some a /\ nth_error (rows df) 2 = Some b
    /\ date_leb (snd (label a)) (snd (label b)) = true.
Proof.
  eexists (reshaped start_feb1 [AZ_feb2; WA_feb3; AZ_feb1]), _, _, _.
  split; [reflexivity|]. split; [reflexivity|]. split; [reflexivity|].
  apply (table_sorted_by_date_then_state
           [AZ_feb2; WA_feb3; AZ_feb1] start_feb1 _ _ eq_refl 0 2);
    [lia | reflexivity | reflexivity].
Defined.

Lemma np_diff_vals dt zs :
  Forall (fun z => (Z.abs z <= 2 ^ 52)%Z) zs ->
  map (cast_float64 dt) (np_diff dt (map Val zs)) = map Val (zdiff zs).
Proof.
  induction zs as [|x t IH]; intros F; [reflexivity|].
  destruct t as [|y t']; [reflexivity|].
  inversion F as [|? ? Fx Ft]; subst. inversion Ft as [|? ? Fy _]; subst.
  change (np_diff dt (map Val (x :: y :: t')))
    with (cell_sub dt (Val y) (Val x) :: np_diff dt (map Val (y :: t'))).
  cbn [map] in *. rewrite (IH Ft), (exact_difference dt x y Fx Fy).
  reflexivity.
Qed.

Lemma new_cases_of_vals dt z t :
  Forall (fun z => (Z.abs z <= 2 ^ 52)%Z) (z :: t) ->
  new_cases_of dt (map Val (z :: t)) = map Val (0%Z :: zdiff (z :: t)).
Proof.
  intros F. unfold new_cases_of, set_slice_from, np_zeros.
  rewrite (np_diff_vals dt _ F). reflexivity.
Qed.

Lemma zsum_zdiff : forall t z, zsum (zdiff (z :: t)) = (last (z :: t) 0 - z)%Z.
Proof.
  induction t as [|y t IH]; intros z; [simpl; lia|].
  change (zsum (zdiff (z :: y :: t)))
    with ((y - z) + zsum (zdiff (y :: t)))%Z.
  change (last (z :: y :: t) 0%Z) with (last (y :: t) 0%Z).
  rewrite IH. lia.
Qed.

(** X3. For a feed whose numbers are in the int64 range: when the
    [cum_positive] values of a state are all numbers of magnitude at
    most 2^52, so that their differences are exact, the [new_cases]
    values of the state are all numbers and add up to the last
    [cum_positive] of the state minus its first. *)
Theorem new_cases_sum_is_net_change json start df locs :
  int64_feed json = true ->
  ExtractDataFrame json start = Ok (df, locs) ->
  forall st zs,
    In st (index_unique_level0 df) ->
    column "cum_positive" (loc st df) = map Val zs ->
    Forall (fun z => (Z.abs z <= 2 ^ 52)%Z) zs ->
    exists ns,
      map (cell_of "new_cases") (loc st df) = map (fun n => Some (Val n)) ns
      /\ zsum ns = (last zs 0 - hd 0 zs)%Z.
Proof.
  intros _ H st zs Hst Hc F.
  apply ExtractDataFrame_inv in H. destruct H as [P [-> ->]].
  pose proof (reshaped_new_cases start json st Hst) as NC.
  change (loc st (reshaped start json))
    with (rows_of st (rows (reshaped start json))) in *.
  rewrite Hc in NC. destruct zs as [|z t].
  - exists []. split; [exact NC | reflexivity].
  - exists (0%Z :: zdiff (z :: t)). split.
    + rewrite NC, (new_cases_of_vals _ z t F), map_map. reflexivity.
    + change (zsum (0%Z :: zdiff (z :: t))) with (0 + zsum (zdiff (z :: t)))%Z.
      rewrite zsum_zdiff. simpl hd. lia.
Qed.

Lemma new_cases_sum_is_net_change_witness :
  exists df locs ns,
    ExtractDataFrame [AZ_feb2; NY_jan31; AZ_feb1] start_feb1 = Ok (df, locs)
    /\ map (cell_of "new_cases") (loc "AZ" df) = map (fun n => Some (Val n)) ns
    /\ zsum ns = 5%Z.
Proof.
  destruct (new_cases_sum_is_net_change
              [AZ_feb2; NY_jan31; AZ_feb1] start_feb1
              (reshaped start_feb1 [AZ_feb2; NY_jan31; AZ_feb1]) ["AZ"; "NY"]
              eq_refl eq_refl "AZ" [10%Z; 15%Z] ltac:(vm_compute; tauto)
              eq_refl
              ltac:(repeat constructor; vm_compute; discriminate))
    as [ns [H1 H2]].
  exists (reshaped start_feb1 [AZ_feb2; NY_jan31; AZ_feb1]), ["AZ"; "NY"], ns.
  split; [reflexivity|]. split; [exact H1 | exact H2].
Defined.

Lemma parses_filter (f : entry -> bool) json :
  Forall parses json -> Forall parses (List.filter f json).
Proof.
  intros F. rewrite List.Forall_forall in F |- *. intros e He.
  apply filter_In in He. apply F. tauto.
Qed.

(** X4. The records dated before [start_date] have no effect on the
    frame: dropping them from the input gives the same frame, the derived
    [new_cases] included, so the first kept day of a state is 0 whatever
    was reported the day before. They only add their states to the
    returned list. *)
Theorem earlier_records_do_not_change_table json start :
  Forall parses json ->
  exists df locs locs',
    ExtractDataFrame json start = Ok (df, locs)
    /\ ExtractDataFrame (List.filter (qualifies start) json) start
       = Ok (df, locs')
    /\ forall s, In s locs' -> In s locs.
Proof.
  intros F.
  exists (reshaped start json), (np_unique (map state json)),
    (np_unique (map state (List.filter (qualifies start) json))).
  split; [now apply ExtractDataFrame_ok|]. split.
  - rewrite (ExtractDataFrame_ok _ start (parses_filter _ json F)).
    f_equal. f_equal. apply reshaped_same_qualifying, qualifying_filter.
  - intros s. rewrite !np_unique_In, !in_map_iff.
    intros [e [E He]]. exists e. split; [exact E|].
    apply filter_In in He. tauto.
Qed.

Lemma earlier_records_do_not_change_table_witness :
  exists df locs locs',
    ExtractDataFrame [NY_jan31; AZ_feb2; AZ_feb1] start_feb1 = Ok (df, locs)
    /\ ExtractDataFrame [AZ_feb2; AZ_feb1] start_feb1 = Ok (df, locs')
    /\ forall s, In s locs' -> In s locs.
Proof.
  apply (earlier_records_do_not_change_table
           [NY_jan31; AZ_feb2; AZ_feb1] start_feb1).
  repeat constructor; unfold parses; vm_compute; discriminate.
Defined.

Lemma strptime_valid s d :
  strptime s = Some d -> valid_date (year d) (month d) (day d) = true.
Proof.
  unfold strptime.
  destruct (match_Y (list_ascii_of_string s)) as [[y rest]|]; [|discriminate].
  destruct (match_md (match_m rest)) as [[[m dd] rest']|]; [|discriminate].
  destruct rest'; [|discriminate].
  destruct (valid_date y m dd) eqn:V; [|discriminate].
  intros E. inversion E; subst. exact V.
Qed.

Lemma lookup_cell_In c l :
  In c (map fst l) -> exists v, lookup_cell c l = Some v.
Proof.
  induction l as [|[n x] t IH]; simpl; [tauto|].
  intros H. destruct (String.eqb_spec n c) as [E|E]; [eauto|].
  destruct H as [H | H]; [congruence | auto].
Qed.

Lemma Forall2_map_right {A B C} (R : A -> C -> Prop) (f : B -> C) :
  forall l l', Forall2 R l (map f l') -> Forall2 (fun a b => R a (f b)) l l'.
Proof.
  intros l l'. revert l.
  induction l' as [|b t IH]; intros l H; inversion H; subst; constructor;
    auto.
Qed.

Lemma Forall2_impl_right {A B} (R Q : A -> B -> Prop) l l' :
  (forall a b, In b l' -> R a b -> Q a b) ->
  Forall2 R l l' -> Forall2 Q l l'.
Proof.
  intros W H. induction H as [|a b l l' Hab H IH]; constructor.
  - apply W; [now left | exact Hab].
  - apply IH. intros x y Hy. apply W. now right.
Qed.

(** X5. For a feed whose numbers are in the int64 range, the rows of the
    frame and the records dated on or after [start_date] correspond one
    to one: the rows, in their order, are the rows of a rearrangement of
    those records, each row carrying the state and the parsed date (a
    valid calendar date) of its record, a state of the returned list,
    and for every entry of [keys] [nan] when line 91-97 extract [nan]
    from its record, and the extracted number when its magnitude is at
    most 2^53. *)
Theorem rows_one_per_record json start df locs :
  int64_feed json = true ->
  ExtractDataFrame json start = Ok (df, locs) ->
  exists qs,
    Permutation qs (qualifying start json)
    /\ Forall2
         (fun r ed =>
            In (fst ed) json
            /\ strptime (date_field (fst ed)) = Some (snd ed)
            /\ date_geb (snd ed) start = true
            /\ valid_date (year (snd ed)) (month (snd ed)) (day (snd ed))
               = true
            /\ label r = (state (fst ed), snd ed)
            /\ In (state (fst ed)) locs
            /\ forall col field,
                 In (col, field) keys ->
                 (extract (fst ed) field = NaN -> cell_of col r = Some NaN)
                 /\ (forall v, extract (fst ed) field = Val v ->
                               (Z.abs v <= 2 ^ 53)%Z ->
                               cell_of col r = Some (Val v)))
         (rows df) qs.
Proof.
  intros _ H. apply ExtractDataFrame_inv in H. destruct H as [P [-> ->]].
  destruct (Permutation_map_inv _ _ (base_rows_perm start json))
    as [qs [E Q]].
  exists qs. split; [now apply Permutation_sym|].
  pose proof (reshaped_agree start json) as A. rewrite E in A.
  apply Forall2_map_right in A.
  revert A. apply Forall2_impl_right.
  intros r [e d] Hin [L C]. cbn [fst snd].
  apply (Permutation_in _ (Permutation_sym Q)) in Hin.
  apply qualifying_In in Hin. destruct Hin as [He [Hd Hg]].
  repeat (split; [assumption|]).
  split; [eapply strptime_valid; eauto|].
  split; [exact L|].
  split; [apply np_unique_In; now apply in_map|].
  intros col field Hk.
  rewrite (C col (keys_not_new_cases col field Hk)).
  rewrite (extracted_cell _ (e, d) col field Hk). cbn [fst].
  split.
  - intros X. now rewrite stored_nan.
  - intros v X B. now rewrite (stored_small _ _ _ v X B).
Qed.

Lemma rows_one_per_record_witness :
  exists df locs qs,
    ExtractDataFrame [NY_jan31; WA_feb3; AZ_feb1] start_feb1 = Ok (df, locs)
    /\ Permutation qs [(WA_feb3, Date 2020 2 3); (AZ_feb1, Date 2020 2 1)]
    /\ length (rows df) = length qs.
Proof.
  destruct (rows_one_per_record
              [NY_jan31; WA_feb3; AZ_feb1] start_feb1 _ _ eq_refl eq_refl)
    as [qs [Q F]].
  eexists _, _, qs. split; [reflexivity|]. split; [exact Q|].
  exact (Forall2_length F).
Defined.

(** * Further properties of the cache *)

Lemma nat_of_digit_char n : nat_of_ascii (digit_char n) = 48 + n mod 10.
Proof.
  unfold digit_char. apply nat_ascii_embedding.
  pose proof (Nat.mod_upper_bound n 10). lia.
Qed.

Lemma digit_char_inj a b : digit_char a = digit_char b -> a mod 10 = b mod 10.
Proof.
  intros H. apply (f_equal nat_of_ascii) in H.
  rewrite !nat_of_digit_char in H. lia.
Qed.

Lemma max_year_value : 9999 = 9 * 1111.
Proof. reflexivity. Qed.

Lemma valid_date_bounds y m d :
  valid_date y m d = true ->
  1 <= y < 10 * 1000 /\ 1 <= m <= 12 /\ 1 <= d <= 31.
Proof.
  unfold valid_date. rewrite !andb_true_iff, !Nat.leb_le, max_year_value.
  intros [[[[[H1 H2] H3] H4] H5] H6].
  assert (days_in_month y m <= 31).
  { unfold days_in_month.
    do 12 (destruct m as [|m]; [try lia; destruct (is_leap y); lia|]). lia. }
  lia.
Qed.

Lemma append_inj_l p : forall a b, (p ++ a)%string = (p ++ b)%string -> a = b.
Proof.
  induction p as [|c p IH]; intros a b H; simpl in H; [exact H|].
  injection H as H. now apply IH.
Qed.

Lemma two_digits_eq m m' :
  m < 100 -> m' < 100 ->
  m / 10 mod 10 = m' / 10 mod 10 -> m mod 10 = m' mod 10 -> m = m'.
Proof. intros. zify. Z.to_euclidean_division_equations. lia. Qed.

Lemma four_digits_eq y y' :
  y < 10 * 1000 -> y' < 10 * 1000 ->
  y / 1000 mod 10 = y' / 1000 mod 10 -> y / 100 mod 10 = y' / 100 mod 10 ->
  y / 10 mod 10 = y' / 10 mod 10 -> y mod 10 = y' mod 10 -> y = y'.
Proof. intros. zify. Z.to_euclidean_division_equations. lia. Qed.

Lemma strftime_inj d1 d2 :
  valid_date (year d1) (month d1) (day d1) = true ->
  valid_date (year d2) (month d2) (day d2) = true ->
  strftime d1 = strftime d2 -> d1 = d2.
Proof.
  intros V1 V2 H. apply valid_date_bounds in V1, V2.
  destruct d1 as [y1 m1 n1], d2 as [y2 m2 n2]. cbn [year month day] in *.
  unfold strftime, four_digits, two_digits in H.
  cbn [String.append year month day] in H.
  injection H as H1 H2 H3 H4 H5 H6 H7 H8.
  apply digit_char_inj in H1, H2, H3, H4, H5, H6, H7, H8.
  f_equal.
  - apply four_digits_eq;
      [lia | lia | exact H1 | exact H2 | exact H3 | exact H4].
  - apply two_digits_eq; [lia | lia | exact H5 | exact H6].
  - apply two_digits_eq; [lia | lia | exact H7 | exact H8].
Qed.

Lemma append_inj_r_json a b :
  (a ++ ".json")%string = (b ++ ".json")%string ->
  String.length a = String.length b -> a = b.
Proof.
  revert b. induction a as [|c a IH]; intros [|c' b] H L; simpl in *;
    try discriminate; [reflexivity|].
  injection H as -> H. f_equal. apply IH; [exact H | lia].
Qed.

Lemma strftime_length d : String.length (strftime d) = 10.
Proof. reflexivity. Qed.

Lemma cache_filename_inj filepath d1 d2 :
  valid_date (year d1) (month d1) (day d1) = true ->
  valid_date (year d2) (month d2) (day d2) = true ->
  cache_filename filepath d1 = cache_filename filepath d2 -> d1 = d2.
Proof.
  intros V1 V2 H. unfold cache_filename in H.
  apply append_inj_l, append_inj_l in H.
  apply strftime_inj; auto.
  apply append_inj_r_json; [exact H|]. now rewrite !strftime_length.
Qed.

Section FetcherMore.

Variable json_loads : string -> option (list entry).
Variable json_dumps : list entry -> string.

(** X6. A cache file whose text does not parse is never repaired: the
    call raises the decoding error without asking the feed and without
    writing, and so does every later call for that day, whatever the feed
    answers then. *)
Theorem corrupt_cache_never_repaired filepath run_date w text :
  files w !! cache_filename filepath (run_day run_date w) = Some text ->
  json_loads text = None ->
  GetData json_loads json_dumps filepath run_date w
  = (Raise JSONDecodeError,
     log (ReadFile (cache_filename filepath (run_day run_date w))) w)
  /\ forall run_date2 w2,
       files w2 = files w ->
       run_day run_date2 w2 = run_day run_date w ->
       let out2 := GetData json_loads json_dumps filepath run_date2 w2 in
       fst out2 = Raise JSONDecodeError
       /\ files (snd out2) = files w
       /\ trace (snd out2)
          = trace w2 ++ [ReadFile (cache_filename filepath (run_day run_date w))].
Proof.
  intros H L. split.
  - rewrite (GetData_hit _ _ _ _ _ text H), L. reflexivity.
  - intros run_date2 w2 Ef Ed out2. unfold out2.
    rewrite <- Ef, <- Ed in H.
    rewrite (GetData_hit _ _ _ _ _ text H), L. cbn [fst snd log files trace].
    rewrite Ed. auto.
Qed.

(** X7. A download that fails is not cached: when there is no cache file
    and the call raises, the error is the connection error, the decoding
    error or, when the records were fetched and the cache file cannot be
    opened for writing, the error of [open], and no file is written. The
    next call for that day whose feed answers a text that parses returns
    its records and writes the cache file if the file can be written, and
    raises the error of [open] again, the records lost, if it cannot. *)
Theorem failed_download_not_cached filepath run_date w e :
  files w !! cache_filename filepath (run_day run_date w) = None ->
  fst (GetData json_loads json_dumps filepath run_date w) = Raise e ->
  (e = ConnectionError \/ e = JSONDecodeError \/ e = OSError)
  /\ (e = OSError <->
      exists text all_data,
        feed w = Some text /\ json_loads text = Some all_data
        /\ writable w (cache_filename filepath (run_day run_date w)) = false)
  /\ files (snd (GetData json_loads json_dumps filepath run_date w)) = files w
  /\ writes (trace (snd (GetData json_loads json_dumps filepath run_date w)))
     = writes (trace w)
  /\ forall run_date2 w2 text all_data,
       files w2 = files w ->
       run_day run_date2 w2 = run_day run_date w ->
       feed w2 = Some text -> json_loads text = Some all_data ->
       (writable w2 (cache_filename filepath (run_day run_date w)) = true ->
        GetData json_loads json_dumps filepath run_date2 w2
        = (Ok all_data,
           write_file (cache_filename filepath (run_day run_date w))
                      (json_dumps all_data) (log (HttpGet url) w2)))
       /\ (writable w2 (cache_filename filepath (run_day run_date w)) = false ->
           GetData json_loads json_dumps filepath run_date2 w2
           = (Raise OSError, log (HttpGet url) w2)).
Proof.
  intros H E. rewrite (GetData_miss _ _ _ _ _ H) in E |- *.
  split; [|split; [|split; [|split]]].
  - destruct (feed w) as [text|];
      [destruct (json_loads text);
       [destruct (writable w _)|]|];
      cbn [fst] in E; inversion E; auto.
  - destruct (feed w) as [text|] eqn:Ef.
    + destruct (json_loads text) as [dt|] eqn:El.
      * destruct (writable w _) eqn:Ew; cbn [fst] in E; inversion E; subst.
        split; [intros _; exists text, dt; auto | reflexivity].
      * cbn [fst] in E. inversion E; subst. split; [discriminate|].
        intros [t [a [Hf [Hl Hw]]]]. congruence.
    + cbn [fst] in E. inversion E; subst. split; [discriminate|].
      intros [t [a [Hf _]]]. discriminate.
  - destruct (feed w) as [text|];
      [destruct (json_loads text);
       [destruct (writable w _)|]|];
      cbn [fst] in E; try discriminate; reflexivity.
  - destruct (feed w) as [text|];
      [destruct (json_loads text);
       [destruct (writable w _)|]|];
      cbn [fst] in E; try discriminate; cbn [snd log trace];
      rewrite writes_app; simpl; apply app_nil_r.
  - intros run_date2 w2 text all_data Ef Ed Hf Hl.
    rewrite <- Ef, <- Ed in H.
    rewrite (GetData_miss _ _ _ _ _ H), Hf, Hl, Ed.
    split; intros ->; reflexivity.
Qed.

(** X8. The cache files of different days are different files, so a call
    for one day leaves the cache file of every other day as it was,
    present or absent. *)
Theorem other_days_cache_untouched filepath run_date w d :
  valid_date (year d) (month d) (day d) = true ->
  valid_date (year (run_day run_date w)) (month (run_day run_date w))
             (day (run_day run_date w)) = true ->
  d <> run_day run_date w ->
  cache_filename filepath d <> cache_filename filepath (run_day run_date w)
  /\ files (snd (GetData json_loads json_dumps filepath run_date w))
       !! cache_filename filepath d
     = files w !! cache_filename filepath d.
Proof.
  intros V1 V2 N.
  assert (Nf : cache_filename filepath d
               <> cache_filename filepath (run_day run_date w)).
  { intros E. apply N. eapply cache_filename_inj; eauto. }
  split; [exact Nf|].
  destruct (files w !! cache_filename filepath (run_day run_date w))
    as [text|] eqn:E.
  - rewrite (GetData_hit _ _ _ _ _ text E). reflexivity.
  - rewrite (GetData_miss _ _ _ _ _ E).
    destruct (feed w) as [text|];
      [destruct (json_loads text);
       [destruct (writable w (cache_filename filepath (run_day run_date w)))|]
      |];
      cbn [snd log write_file files]; try reflexivity.
    apply lookup_insert_ne. congruence.
Qed.

End FetcherMore.

Lemma corrupt_cache_never_repaired_witness :
  fst (GetData picky_loads sample_dumps "./" None world_corrupt)
  = Raise JSONDecodeError.
Proof.
  rewrite (proj1 (corrupt_cache_never_repaired
                    picky_loads sample_dumps "./" None world_corrupt "<html>"
                    eq_refl eq_refl)).
  reflexivity.
Defined.

Lemma failed_download_not_cached_witness :
  fst (GetData picky_loads sample_dumps "./" (Some (Date 2020 2 1))
               world_good_feed)
  = Ok [AZ_feb1]
  /\ fst (GetData picky_loads sample_dumps "./" (Some (Date 2020 2 1))
                  world_no_directory)
     = Raise OSError.
Proof.
  pose proof (proj2 (proj2 (proj2 (proj2
                (failed_download_not_cached
                   picky_loads sample_dumps "./" None world_bad_feed
                   JSONDecodeError eq_refl eq_refl)))))
    as H.
  split.
  - rewrite (proj1 (H (Some (Date 2020 2 1)) world_good_feed
                      "[AZ_feb1]" [AZ_feb1] eq_refl eq_refl eq_refl eq_refl)
               eq_refl).
    reflexivity.
  - rewrite (proj2 (H (Some (Date 2020 2 1)) world_no_directory
                      "[AZ_feb1]" [AZ_feb1] eq_refl eq_refl eq_refl eq_refl)
               eq_refl).
    reflexivity.
Defined.

Lemma other_days_cache_untouched_witness :
  files (snd (GetData sample_loads sample_dumps "./" None world_good_feed))
    !! "./covidtracking_data_2020_02_01.json"
  = None.
Proof.
  exact (proj2 (other_days_cache_untouched
                  sample_loads sample_dumps "./" None world_good_feed
                  (Date 2020 2 1) eq_refl eq_refl
                  ltac:(discriminate))).
Defined.

(** * Dates of the feed *)

Lemma is_digit_digit_char n : is_digit (digit_char n) = true.
Proof.
  unfold is_digit. rewrite nat_of_digit_char.
  pose proof (Nat.mod_upper_bound n 10).
  apply andb_true_iff. split; apply Nat.leb_le; lia.
Qed.

Lemma digit_val_digit_char n : digit_val (digit_char n) = n mod 10.
Proof. unfold digit_val. rewrite nat_of_digit_char. lia. Qed.

Lemma month_day_table :
  forallb (fun m => forallb (month_day_read_back m) (seq 1 31)) (seq 1 12)
  = true.
Proof. vm_compute. reflexivity. Qed.

Lemma month_day_canonical m d :
  1 <= m <= 12 -> 1 <= d <= 31 ->
  match_md (match_m [digit_char (m / 10); digit_char m;
                     digit_char (d / 10); digit_char d])
  = Some (m, d, []).
Proof.
  intros Hm Hd. pose proof month_day_table as T.
  rewrite forallb_forall in T.
  assert (Tm := T m ltac:(apply in_seq; lia)).
  rewrite forallb_forall in Tm.
  assert (Td := Tm d ltac:(apply in_seq; lia)).
  unfold month_day_read_back in Td.
  destruct (match_md _) as [[[m' d'] rest]|]; [|discriminate].
  destruct rest; [|discriminate].
  apply andb_true_iff in Td. destruct Td as [E1 E2].
  apply Nat.eqb_eq in E1, E2. now subst.
Qed.

Lemma year_digits y :
  y < 10 * 1000 ->
  1000 * (y / 1000 mod 10) + 100 * (y / 100 mod 10) + 10 * (y / 10 mod 10)
  + y mod 10 = y.
Proof. intros. zify. Z.to_euclidean_division_equations. lia. Qed.

Lemma strptime_canonical y m d :
  valid_date y m d = true ->
  strptime (canonical_date y m d) = Some (Date y m d).
Proof.
  intros V. pose proof (valid_date_bounds y m d V) as [By [Bm Bd]].
  unfold strptime.
  change (list_ascii_of_string (canonical_date y m d))
    with [digit_char (y / 1000); digit_char (y / 100); digit_char (y / 10);
          digit_char y; digit_char (m / 10); digit_char m;
          digit_char (d / 10); digit_char d].
  unfold match_Y. rewrite !is_digit_digit_char. cbn [andb].
  rewrite !digit_val_digit_char, year_digits by lia.
  rewrite month_day_canonical by lia.
  now rewrite V.
Qed.

(** X9. A date written as the eight digits YYYYMMDD of a valid calendar
    date is read back as that date, and a feed whose records all carry
    such a date is reshaped without an error. *)
Theorem canonical_dates_parse json start :
  (forall e, In e json ->
     exists y m d, valid_date y m d = true
                   /\ date_field e = canonical_date y m d) ->
  (forall e y m d,
     In e json -> valid_date y m d = true ->
     date_field e = canonical_date y m d ->
     strptime (date_field e) = Some (Date y m d))
  /\ exists df locs, ExtractDataFrame json start = Ok (df, locs).
Proof.
  intros H. split.
  - intros e y m d _ V ->. now apply strptime_canonical.
  - eexists _, _. apply ExtractDataFrame_ok.
    apply List.Forall_forall. intros e He.
    destruct (H e He) as [y [m [d [V E]]]].
    unfold parses. rewrite E, (strptime_canonical y m d V). discriminate.
Qed.

Lemma canonical_dates_parse_witness :
  exists df locs,
    ExtractDataFrame [AZ_feb2; NY_jan31] start_feb1 = Ok (df, locs).
Proof.
  apply (proj2 (canonical_dates_parse [AZ_feb2; NY_jan31] start_feb1
    ltac:(intros e [<- | [<- | []]];
          [exists 2020, 2, 2 | exists 2020, 1, 31]; split; reflexivity))).
Defined.

(** * The main program *)

Lemma rows_of_In st rs r :
  In r (rows_of st rs) <-> In r rs /\ fst (label r) = st.
Proof.
  unfold rows_of. rewrite filter_In, String.eqb_eq. reflexivity.
Qed.

Lemma reshaped_first_zero start json st r0 rest :
  rows_of st (rows (reshaped start json)) = r0 :: rest ->
  cell_of "new_cases" r0 = Some (Val 0).
Proof.
  intros E.
  assert (Hr : In r0 (rows_of st (rows (reshaped start json))))
    by (rewrite E; now left).
  apply rows_of_In in Hr. destruct Hr as [Hr Hs].
  assert (Hst : In st (index_unique_level0 (reshaped start json))).
  { unfold index_unique_level0. apply unique_first_In, in_map_iff.
    exists r0. auto. }
  pose proof (reshaped_new_cases start json st Hst) as NC.
  rewrite E in NC. simpl in NC. inversion NC. reflexivity.
Qed.

Lemma sorted_map {A B} (f : A -> B) (R : B -> B -> Prop) l :
  StronglySorted (fun a b => R (f a) (f b)) l -> StronglySorted R (map f l).
Proof.
  induction 1 as [|x t St IH Ft]; simpl; constructor; [exact IH|].
  rewrite List.Forall_forall in Ft |- *. intros y Hy.
  apply in_map_iff in Hy. destruct Hy as [z [<- Hz]]. auto.
Qed.

Lemma filter_state_length es (qs : list (entry * date)) st :
  length (rows_of st (map (extracted_row es) qs))
  = length (List.filter (fun ed => String.eqb (state (fst ed)) st) qs).
Proof.
  induction qs as [|x t IH]; simpl; [reflexivity|].
  destruct (String.eqb (state (fst x)) st); simpl; now rewrite IH.
Qed.

Lemma filter_perm {A} (f : A -> bool) l l' :
  Permutation l l' -> Permutation (List.filter f l) (List.filter f l').
Proof.
  induction 1 as [| x l l' P IH | x y l | l1 l2 l3 P1 IH1 P2 IH2]; simpl.
  - constructor.
  - destruct (f x); [now constructor | exact IH].
  - destruct (f x), (f y); try reflexivity. apply perm_swap.
  - now transitivity (List.filter f l2).
Qed.

Lemma reshaped_rows_of_length start json st :
  length (rows_of st (rows (reshaped start json)))
  = length (List.filter (fun ed => String.eqb (state (fst ed)) st)
                        (qualifying start json)).
Proof.
  rewrite (agree_list_length _ _ _
             (agree_list_rows_of _ st _ _ (reshaped_agree start json))).
  rewrite <- (filter_state_length (map fst (qualifying start json))).
  apply Permutation_length. unfold rows_of.
  apply filter_perm, base_rows_perm.
Qed.

Section MainFacts.

Variable json_loads : string -> option (list entry).
Variable json_dumps : list entry -> string.

Lemma main_world w :
  snd (main json_loads json_dumps w)
  = snd (GetData json_loads json_dumps "./" (Some (Date 2020 2 1)) w).
Proof.
  unfold main.
  destruct (fst (GetData json_loads json_dumps "./" (Some (Date 2020 2 1)) w))
    as [json|e]; [|reflexivity].
  destruct (ExtractDataFrame json (Date 2020 2 1)) as [[df locs]|e];
    [|reflexivity].
  destruct (loc_checked "AZ" df) as [sub|]; [|reflexivity].
  destruct (getitem "new_cases" sub); reflexivity.
Qed.

Lemma main_same_fetch w1 w2 :
  fst (GetData json_loads json_dumps "./" (Some (Date 2020 2 1)) w1)
  = fst (GetData json_loads json_dumps "./" (Some (Date 2020 2 1)) w2) ->
  fst (main json_loads json_dumps w1) = fst (main json_loads json_dumps w2).
Proof.
  intros E. unfold main. rewrite E.
  destruct (fst (GetData json_loads json_dumps "./" (Some (Date 2020 2 1)) w2))
    as [json|e]; [|reflexivity].
  destruct (ExtractDataFrame json (Date 2020 2 1)) as [[df locs]|e];
    [|reflexivity].
  destruct (loc_checked "AZ" df) as [sub|]; [|reflexivity].
  destruct (getitem "new_cases" sub); reflexivity.
Qed.

(** X10. The main program stamps its cache with the start date, not with
    the day of the run: once the file of 2020-02-01 exists, every run
    reads it, never asks the feed and writes nothing, and ends the same
    way whatever the clock and the feed are. *)
Theorem main_never_refreshes w text :
  files w !! main_cache = Some text ->
  files (snd (main json_loads json_dumps w)) = files w
  /\ trace (snd (main json_loads json_dumps w))
     = trace w ++ [ReadFile main_cache]
  /\ forall w2,
       files w2 !! main_cache = Some text ->
       fst (main json_loads json_dumps w2)
       = fst (main json_loads json_dumps w).
Proof.
  intros H.
  assert (G : forall w', files w' !! main_cache = Some text ->
            GetData json_loads json_dumps "./" (Some (Date 2020 2 1)) w'
            = (match json_loads text with
               | Some all_data => Ok all_data
               | None => Raise JSONDecodeError
               end, log (ReadFile main_cache) w')).
  { intros w' H'.
    exact (GetData_hit _ _ "./" (Some (Date 2020 2 1)) w' text H'). }
  rewrite main_world, (G w H). cbn [snd log files trace].
  split; [reflexivity|]. split; [reflexivity|].
  intros w2 H2. apply main_same_fetch. now rewrite (G w H), (G w2 H2).
Qed.

(** X11. When the fetch returns records whose dates all parse, the main
    program ends in [KeyError] for "AZ" when no record of "AZ" is dated
    on or after 2020-02-01, even if "AZ" occurs in earlier records;
    otherwise it plots one point per such record, in the order of the
    dates, the first of them with the value 0. *)
Theorem main_needs_a_row_of_AZ w all_data :
  fst (GetData json_loads json_dumps "./" (Some (Date 2020 2 1)) w)
  = Ok all_data ->
  Forall parses all_data ->
  ((forall e d, In e all_data -> state e = "AZ" ->
                strptime (date_field e) = Some d ->
                date_geb d (Date 2020 2 1) = false) ->
   fst (main json_loads json_dumps w) = KeyError "AZ")
  /\ (forall e d,
        In e all_data -> state e = "AZ" ->
        strptime (date_field e) = Some d ->
        date_geb d (Date 2020 2 1) = true ->
        exists d0 rest,
          fst (main json_loads json_dumps w) = Plotted ((d0, Val 0) :: rest)
          /\ In d (d0 :: map fst rest)
          /\ StronglySorted (fun a b => date_leb a b = true)
                            (d0 :: map fst rest)
          /\ length ((d0, Val 0) :: rest)
             = length (List.filter
                         (fun ed => String.eqb (state (fst ed)) "AZ")
                         (qualifying (Date 2020 2 1) all_data))).
Proof.
  intros G P. unfold main. rewrite G.
  rewrite (ExtractDataFrame_ok all_data (Date 2020 2 1) P).
  unfold loc_checked.
  change (loc "AZ" (reshaped (Date 2020 2 1) all_data))
    with (rows_of "AZ" (rows (reshaped (Date 2020 2 1) all_data))).
  split.
  - intros Hnone.
    rewrite (rows_of_nil "AZ" (rows (reshaped (Date 2020 2 1) all_data)));
      [reflexivity|].
    intros r Hr E.
    destruct (reshaped_row_origin _ _ r Hr) as [e [d [H1 [H2 [H3 H4]]]]].
    rewrite H4 in E. simpl in E. rewrite (Hnone e d H1 E H2) in H3.
    discriminate.
  - intros e d He Hs Hd Hg.
    assert (Hq : In (e, d) (qualifying (Date 2020 2 1) all_data))
      by (apply qualifying_In; auto).
    destruct (record_row_cells _ _ e d Hq) as [r [Hr [L _]]].
    assert (Hin : In r (rows_of "AZ"
                          (rows (reshaped (Date 2020 2 1) all_data)))).
    { apply rows_of_In. split; [exact Hr|]. rewrite L. exact Hs. }
    pose proof (reshaped_rows_not_after (Date 2020 2 1) all_data "AZ") as S.
    pose proof (reshaped_rows_of_length (Date 2020 2 1) all_data "AZ") as Len.
    assert (Cols : columns (reshaped (Date 2020 2 1) all_data)
                   = map fst keys ++ ["new_cases"]).
    { apply reshaped_columns. intros N. rewrite N in Hr. destruct Hr. }
    destruct (rows_of "AZ" (rows (reshaped (Date 2020 2 1) all_data)))
      as [|r0 rest] eqn:E; [destruct Hin|].
    pose proof (reshaped_first_zero _ _ _ _ _ E) as Z0.
    unfold cell_of in Z0.
    unfold getitem. cbn [columns rows]. rewrite Cols.
    replace (existsb (String.eqb "new_cases") (map fst keys ++ ["new_cases"]))
      with true by reflexivity.
    cbn [map]. rewrite Z0.
    eexists _, _. split; [reflexivity|].
    rewrite map_map. cbn [fst].
    change (snd (label r0) :: map (fun x => snd (label x)) rest)
      with (map (fun x => snd (label x)) (r0 :: rest)).
    split; [|split].
    + apply in_map_iff. exists r. split; [now rewrite L | exact Hin].
    + apply sorted_map. exact S.
    + rewrite <- Len. simpl. now rewrite length_map.
Qed.

End MainFacts.

Lemma main_never_refreshes_witness :
  fst (main picky_loads sample_dumps world_later)
  = fst (main picky_loads sample_dumps world_cached)
  /\ trace (snd (main picky_loads sample_dumps world_later))
     = [ReadFile main_cache].
Proof.
  destruct (main_never_refreshes picky_loads sample_dumps
              world_cached "[AZ_feb1]" eq_refl) as [_ [_ H]].
  split; [exact (H world_later eq_refl)|].
  exact (proj1 (proj2 (main_never_refreshes picky_loads sample_dumps
                         world_later "[AZ_feb1]" eq_refl))).
Defined.

Lemma main_needs_a_row_of_AZ_witness :
  fst (main loads_NY sample_dumps world_empty) = KeyError "AZ"
  /\ exists rest,
       fst (main sample_loads sample_dumps world_empty)
       = Plotted ((Date 2020 2 1, Val 0) :: rest).
Proof.
  split.
  - apply (proj1 (main_needs_a_row_of_AZ loads_NY sample_dumps world_empty
                    [NY_jan31] eq_refl
                    ltac:(repeat constructor; unfold parses; vm_compute;
                          discriminate))).
    intros e d [<- | []] Hs. vm_compute in Hs. discriminate.
  - destruct (proj2 (main_needs_a_row_of_AZ sample_loads sample_dumps
                       world_empty [AZ_feb1] eq_refl
                       ltac:(repeat constructor; unfold parses; vm_compute;
                             discriminate))
                AZ_feb1 (Date 2020 2 1) (or_introl eq_refl) eq_refl eq_refl
                eq_refl) as [d0 [rest [H _]]].
    exists rest. rewrite H. vm_compute in H. inversion H; subst. reflexivity.
Defined.
